(** * Aletheia: document store, query endpoint, ingestion and editor glue

    A shallow embedding of the parts of the Aletheia repository that its
    specification talks about, followed by the properties proved of them.

    - [AletheiaDocumentProvider]  extension/vscode/src/virtualfs/provider.ts
    - [TempDocuments]             extension/vscode/src/virtualfs/tempDocuments.ts
    - [Renderer]                  the webview renderer (escapeHtml, renderBlocks)
    - [ParseFile]                 extension/vscode/src/commands/parseFile.ts
    - [DocumentStore]             document_store.py, as quoted in files_created.md
    - [Controller]                controller.py, as quoted in files_created.md
    - [Query]                     api/query.py, as quoted in the Part 2 plan

    Strings are Rocq strings (sequences of 8-bit characters); the JavaScript
    and Python string operations used by the code (replace of a one-character
    pattern, split on a dot, concatenation) act on them position by position,
    so the embedding is independent of the encoding of non-ASCII text.  The
    two places where the code looks at more are modelled apart: Python's
    [strip] reads the bytes as UTF-8, and the tooltip, which counts UTF-16
    code units, takes its text as a list of code units. *)

From Stdlib Require Import ZArith QArith Lqa Ascii String List DecimalString DecimalNat
  Sorting.Sorted.
From stdpp Require Import gmap strings list fin_maps.

Local Open Scope string_scope.

(** stdpp freezes string concatenation under [simpl]; the proofs below reduce
    it on constructors as the Standard Library does. *)
#[local] Arguments String.append !_ _ / : simpl nomatch.

(* ===================================================================== *)
(** * Part I: definitions                                                 *)
(* ===================================================================== *)

(** ** Characters the code mentions *)

Definition amp : ascii := ascii_of_nat 38.
Definition lt_sign : ascii := ascii_of_nat 60.
Definition gt_sign : ascii := ascii_of_nat 62.
Definition dquote : ascii := ascii_of_nat 34.
Definition squote : ascii := ascii_of_nat 39.
Definition dot : ascii := ascii_of_nat 46.
Definition underscore : ascii := ascii_of_nat 95.

(** How many times the character [c] occurs in [s]. *)
Fixpoint count_char (c : ascii) (s : string) : nat :=
  match s with
  | EmptyString => 0
  | String a rest => (if Ascii.eqb a c then 1 else 0) + count_char c rest
  end.

(** Lower-casing of the letters A to Z; every other character stays. *)
Definition lowerChar (a : ascii) : ascii :=
  let n := nat_of_ascii a in
  if (65 <=? n)%nat && (n <=? 90)%nat then ascii_of_nat (n + 32) else a.

Fixpoint lowercase (s : string) : string :=
  match s with
  | EmptyString => EmptyString
  | String a rest => String (lowerChar a) (lowercase rest)
  end.

(** ** The virtual document provider (provider.ts) *)

Module AletheiaDocumentProvider.

(** A [vscode.Uri] enters the provider only through [uri.toString()]; the
    embedding names a URI by that string. *)
Abbreviation Uri := string.

(** [documents] is the private [Map<string, string>]; [fired] records the
    URIs handed to [_onDidChange.fire], oldest first. *)
Record t := mk {
  documents : gmap string string;
  fired : list Uri
}.

Definition create : t := {| documents := ∅; fired := [] |}.

Definition setContent (uri : Uri) (content : string) (p : t) : t :=
  {| documents := <[uri := content]> (documents p);
     fired := fired p ++ [uri] |}.

(** [this.documents.get(uri.toString()) || ''] : an absent key gives
    [undefined], and both [undefined] and the empty string are falsy. *)
Definition provideTextDocumentContent (uri : Uri) (p : t) : string :=
  match documents p !! uri with
  | Some content => if String.eqb content "" then "" else content
  | None => ""
  end.

Definition removeDocument (uri : Uri) (p : t) : t :=
  {| documents := delete uri (documents p); fired := fired p |}.

Definition clear (p : t) : t :=
  {| documents := ∅; fired := fired p |}.

(** [dispose] releases the emitter and clears the map. *)
Definition dispose (p : t) : t := clear p.

End AletheiaDocumentProvider.

(** ** The webview renderer *)

Module Renderer.

(** [text.replace(/c/g, r)] for a one-character pattern [c]: every
    occurrence of [c], left to right, is replaced by [r]; the replacement
    text is not scanned again. *)
Fixpoint replaceAll (c : ascii) (r : string) (text : string) : string :=
  match text with
  | EmptyString => EmptyString
  | String a rest =>
      if Ascii.eqb a c then r ++ replaceAll c r rest
      else String a (replaceAll c r rest)
  end.

Definition escapeHtml (text : string) : string :=
  replaceAll squote "&#39;"
    (replaceAll dquote "&quot;"
      (replaceAll gt_sign "&gt;"
        (replaceAll lt_sign "&lt;"
          (replaceAll amp "&amp;" text)))).

(** The entity of one character: what a single left-to-right pass that
    replaces each special character by its entity would emit. *)
Definition entity (a : ascii) : string :=
  if Ascii.eqb a amp then "&amp;"
  else if Ascii.eqb a lt_sign then "&lt;"
  else if Ascii.eqb a gt_sign then "&gt;"
  else if Ascii.eqb a dquote then "&quot;"
  else if Ascii.eqb a squote then "&#39;"
  else String a EmptyString.

Fixpoint escapeEach (text : string) : string :=
  match text with
  | EmptyString => EmptyString
  | String a rest => entity a ++ escapeEach rest
  end.

(** The five characters [escapeHtml] rewrites. *)
Definition special (a : ascii) : bool :=
  Ascii.eqb a amp || Ascii.eqb a lt_sign || Ascii.eqb a gt_sign ||
  Ascii.eqb a dquote || Ascii.eqb a squote.

(** The four characters that open or close markup and attribute values. *)
Definition markup : list ascii := [lt_sign; gt_sign; dquote; squote].

(** A block as the renderer reads it.  [block.confidence] is a JavaScript
    number that only reaches the page through
    [(block.confidence * 100).toFixed(1)]; the embedding keeps the
    confidence abstract and takes that formatting as a parameter. *)
Section Render.
Variable Confidence : Type.
Variable percent : Confidence -> string.

Record Block := mkBlock {
  type : string;
  text : string;
  confidence : Confidence
}.

(** The template of one block with the three places where the text goes
    left open. *)
Definition blockTemplate (ty : string) (hole : string) (conf : string) : string :=
  "
        <div class=" ++ String dquote "block " ++
      (if String.eqb ty "heading" then "block-heading" else "") ++ String dquote "
             onclick=" ++ String dquote "this.classList.toggle('selected')" ++ String dquote ">
            <div class=" ++ String dquote "block-actions" ++ String dquote ">
                <button onclick=" ++ String dquote "insertBlock('" ++ hole ++ "')" ++ String dquote ">Insert</button>
                <button onclick=" ++ String dquote "copyBlock('" ++ hole ++ "')" ++ String dquote ">Copy</button>
            </div>
            <div class=" ++ String dquote "block-text" ++ String dquote ">" ++ hole ++ "</div>
            <div class=" ++ String dquote "confidence" ++ String dquote ">Confidence: " ++ conf ++ "%</div>
        </div>
    ".

Definition renderBlock (block : Block) : string :=
  blockTemplate (type block) (escapeHtml (text block)) (percent (confidence block)).

(** [blocks.map(block => ...).join('')] *)
Definition renderBlocks (blocks : list Block) : string :=
  fold_right String.append "" (map renderBlock blocks).
End Render.

End Renderer.

(** ** The webview page around the blocks (webview renderer, continued) *)

Module Webview.

(** The fixed text of the page template of [createWebviewContent], cut at the
    four places where a value is spliced in. *)
Definition pageHead : string :=
  "
        <!DOCTYPE html>
        <html lang=" ++ String dquote "en" ++ String dquote ">
        <head>
            <meta charset=" ++ String dquote "UTF-8" ++ String dquote ">
            <meta name=" ++ String dquote "viewport" ++ String dquote " content=" ++ String dquote "width=device-width, initial-scale=1.0" ++ String dquote ">
            <meta http-equiv=" ++ String dquote "Content-Security-Policy" ++ String dquote " content=" ++ String dquote "default-src 'none'; style-src ".

Definition pageCsp : string :=
  " 'unsafe-inline'; script-src 'unsafe-inline';" ++ String dquote ">
            <link href=" ++ String dquote "".

Definition pageStyle : string :=
  "" ++ String dquote " rel=" ++ String dquote "stylesheet" ++ String dquote ">
            <title>Aletheia Preview</title>
            <style>
                body {
                    font-family: var(--vscode-font-family);
                    color: var(--vscode-foreground);
                    background-color: var(--vscode-editor-background);
                    padding: 20px;
                }
                .page {
                    border: 1px solid var(--vscode-panel-border);
                    margin-bottom: 20px;
                    padding: 15px;
                    border-radius: 4px;
                }
                .page-header {
                    font-weight: bold;
                    margin-bottom: 10px;
                    padding-bottom: 10px;
                    border-bottom: 1px solid var(--vscode-panel-border);
                }
                .block {
                    padding: 8px;
                    margin: 4px 0;
                    background-color: var(--vscode-editor-inactiveSelectionBackground);
                    border-radius: 4px;
                    cursor: pointer;
                }
                .block:hover {
                    background-color: var(--vscode-editor-selectionBackground);
                }
                .block-heading {
                    font-size: 1.2em;
                    font-weight: bold;
                }
                .block-actions {
                    float: right;
                }
                .block-actions button {
                    background: var(--vscode-button-background);
                    color: var(--vscode-button-foreground);
                    border: none;
                    padding: 4px 8px;
                    margin-left: 4px;
                    cursor: pointer;
                    border-radius: 2px;
                }
                .block-actions button:hover {
                    background: var(--vscode-button-hoverBackground);
                }
                .confidence {
                    font-size: 0.8em;
                    color: var(--vscode-descriptionForeground);
                }
                .table-container {
                    overflow-x: auto;
                    margin: 10px 0;
                }
                table {
                    border-collapse: collapse;
                    width: 100%;
                }
                th, td {
                    border: 1px solid var(--vscode-panel-border);
                    padding: 8px;
                    text-align: left;
                }
                th {
                    background-color: var(--vscode-editor-inactiveSelectionBackground);
                }
            </style>
        </head>
        <body>
            <h1>Document Preview</h1>
            <p>Document ID: ".

Definition pageBody : string :=
  "</p>
            ".

Definition pageTail : string :=
  "
            <script>
                const vscode = acquireVsCodeApi();

                function insertBlock(text) {
                    vscode.postMessage({ command: 'insertBlock', text: text });
                }

                function copyBlock(text) {
                    vscode.postMessage({ command: 'copyBlock', text: text });
                }
            </script>
        </body>
        </html>
    ".

Section Page.
Variable Confidence : Type.
Variable percent : Confidence -> string.
(** [page.page_number] is a JavaScript number; the template prints it with
    the number-to-string conversion, taken here as a parameter. *)
Variable Number : Type.
Variable numberText : Number -> string.

(** [table.cells], with a missing field read as the empty array. *)
Record Table := mkTable { cells : list (list string) }.

Record Page := mkPage {
  page_number : Number;
  blocks : list (Renderer.Block Confidence);
  tables : list Table
}.

(** The parse result as the renderer reads it; [document_id] may be
    missing. *)
Record Result := mkResult {
  document_id : option string;
  pages : list Page
}.

(** [parts.join('')] *)
Definition join (parts : list string) : string :=
  fold_right String.append EmptyString parts.

(** One cell: a header cell in row 0, a data cell below. *)
Definition renderCell (i : nat) (cell : string) : string :=
  if (i =? 0)%nat then "<th>" ++ Renderer.escapeHtml cell ++ "</th>"
  else "<td>" ++ Renderer.escapeHtml cell ++ "</td>".

Definition renderRow (i : nat) (row : list string) : string :=
  "
                    <tr>
                        " ++ join (map (renderCell i) row) ++ "
                    </tr>
                ".

Definition renderTable (t : Table) : string :=
  "
        <div class=" ++ String dquote "table-container" ++ String dquote ">
            <table>
                " ++ join (imap renderRow (cells t)) ++ "
            </table>
        </div>
    ".

Definition renderTables (tables : list Table) : string :=
  join (map renderTable tables).

Definition renderPage (page : Page) : string :=
  "
        <div class=" ++ String dquote "page" ++ String dquote ">
            <div class=" ++ String dquote "page-header" ++ String dquote ">Page " ++
    numberText (page_number page) ++ "</div>
            " ++ Renderer.renderBlocks Confidence percent (blocks page) ++ "
            " ++ renderTables (tables page) ++ "
        </div>
    ".

Definition renderPages (pages : list Page) : string :=
  join (map renderPage pages).

(** [result.document_id || 'Unknown'] *)
Definition shownId (result : Result) : string :=
  match document_id result with
  | Some id => if String.eqb id EmptyString then "Unknown" else id
  | None => "Unknown"
  end.

(** [cspSource] is [webview.cspSource] and [styleUri] the text of the URI of
    the style sheet, both supplied by the editor. *)
Definition createWebviewContent (result : Result) (cspSource styleUri : string) : string :=
  pageHead ++ cspSource ++ pageCsp ++ styleUri ++ pageStyle ++
  shownId result ++ pageBody ++ renderPages (pages result) ++ pageTail.

(** The same result with every text that comes from the document emptied:
    the text of every block and every table cell. *)
Definition blankBlock (b : Renderer.Block Confidence) : Renderer.Block Confidence :=
  {| Renderer.type := Renderer.type Confidence b;
     Renderer.text := EmptyString;
     Renderer.confidence := Renderer.confidence Confidence b |}.

Definition blankTable (t : Table) : Table :=
  {| cells := map (map (fun _ => EmptyString)) (cells t) |}.

Definition blankPage (page : Page) : Page :=
  {| page_number := page_number page;
     blocks := map blankBlock (blocks page);
     tables := map blankTable (tables page) |}.

Definition blankResult (result : Result) : Result :=
  {| document_id := document_id result; pages := map blankPage (pages result) |}.
End Page.

End Webview.

(** ** Where the markup characters of the page come from *)

Module PageMarkup.

(** A number for each of the four markup characters, 0 for any other. *)
Definition perChar (c : ascii) (lt gt dq sq : nat) : nat :=
  if Ascii.eqb c lt_sign then lt
  else if Ascii.eqb c gt_sign then gt
  else if Ascii.eqb c dquote then dq
  else if Ascii.eqb c squote then sq
  else 0.

(** The markup characters written out in the templates of the renderer: in
    the page around the pages, around one page, one block, one table, one
    row and one cell. *)
Definition ofFrame (c : ascii) : nat := perChar c 21 21 16 10.
Definition ofPage (c : ascii) : nat := perChar c 4 4 4 0.
Definition ofBlock (c : ascii) : nat := perChar c 12 12 14 6.
Definition ofTable (c : ascii) : nat := perChar c 4 4 2 0.
Definition ofRow (c : ascii) : nat := perChar c 2 2 0 0.
Definition ofCell (c : ascii) : nat := perChar c 2 2 0 0.

Section Account.
Variable Confidence : Type.
Variable percent : Confidence -> string.
Variable Number : Type.
Variable numberText : Number -> string.

Definition inBlock (c : ascii) (b : Renderer.Block Confidence) : nat :=
  ofBlock c + count_char c (percent (Renderer.confidence Confidence b)).

Definition inTable (c : ascii) (t : Webview.Table) : nat :=
  ofTable c + list_sum (map (fun row => ofRow c + length row * ofCell c) (Webview.cells t)).

Definition inPage (c : ascii) (page : Webview.Page Confidence Number) : nat :=
  ofPage c + count_char c (numberText (Webview.page_number Confidence Number page)) +
  list_sum (map (inBlock c) (Webview.blocks Confidence Number page)) +
  list_sum (map (inTable c) (Webview.tables Confidence Number page)).

(** The templates, the two strings of the editor, the document id as shown,
    the printed page numbers and the printed confidences; the texts of the
    blocks and of the table cells do not occur. *)
Definition inResult (c : ascii) (result : Webview.Result Confidence Number)
    (cspSource styleUri : string) : nat :=
  ofFrame c + count_char c cspSource + count_char c styleUri +
  count_char c (Webview.shownId Confidence Number result) +
  list_sum (map (inPage c) (Webview.pages Confidence Number result)).
End Account.

End PageMarkup.

(** ** The parse command (commands/parseFile.ts) *)

Module ParseFile.

(** [String.prototype.toLowerCase] on the characters that matter to the
    comparison below.  (No character outside A to Z lower-cases to a letter
    of the five extension names, so this is exact for [isSupportedFile].) *)
Definition toLowerCase (s : string) : string := lowercase s.

(** [s.split(c)] for a one-character separator: the pieces between the
    separators, in order; never an empty array. *)
Fixpoint split (c : ascii) (s : string) : list string :=
  match s with
  | EmptyString => [EmptyString]
  | String a rest =>
      if Ascii.eqb a c then EmptyString :: split c rest
      else match split c rest with
           | [] => [String a EmptyString]
           | piece :: pieces => String a piece :: pieces
           end
  end.

(** [Array.prototype.pop]: the last element, [undefined] on an empty array. *)
Definition pop (pieces : list string) : option string := last pieces.

Definition supported : list string := ["pdf"; "png"; "jpg"; "jpeg"; "tiff"].

(** [Array.prototype.includes] on strings. *)
Definition includes (l : list string) (x : string) : bool :=
  existsb (String.eqb x) l.

(** The function reads [uri.fsPath] and nothing else of the file. *)
Definition isSupportedFile (fsPath : string) : bool :=
  let ext := pop (split dot (toLowerCase fsPath)) in
  includes supported
    (match ext with
     | Some e => if String.eqb e EmptyString then EmptyString else e
     | None => EmptyString
     end).

(** A file as the command meets it: a path and the bytes stored there. *)
Record File := mkFile {
  fsPath : string;
  bytes : list Byte.byte
}.

(** The check the command applies to a file before it is sent for parsing. *)
Definition detect (f : File) : bool := isSupportedFile (fsPath f).

End ParseFile.

(** ** The document model (models/document.py, as the sources use it) *)

Inductive BlockType :=
  | heading | paragraph | list_block | table | figure
  | caption | header | footer | other.

#[global] Instance BlockType_eq_dec : EqDecision BlockType.
Proof. solve_decision. Defined.

Module BoundingBox.
Record t := mk { x : Q; y : Q; width : Q; height : Q }.
End BoundingBox.

Module Block.
Record t := mk {
  id : string;
  type : BlockType;
  content : string;
  bbox : BoundingBox.t;
  confidence : Q
}.
End Block.

Module Page.
Record t := mk {
  page_number : nat;
  width : Q;
  height : Q;
  blocks : list Block.t
}.
End Page.

Module Document.
Record t := mk {
  document_id : string;
  filename : string;
  mime_type : string;
  pages : list Page.t
}.
End Document.

(** ** The in-memory document store (document_store.py) *)

Module DocumentStore.

(** [self._documents: Dict[str, Document]] *)
Abbreviation t := (gmap string Document.t).

Definition init : t := ∅.

(** [self._documents[document.document_id] = document] *)
Definition save (document : Document.t) (self : t) : t :=
  <[Document.document_id document := document]> self.

(** [return self._documents.get(document_id)] : [None] for a missing key. *)
Definition get (document_id : string) (self : t) : option Document.t :=
  self !! document_id.

End DocumentStore.

(** ** Temporary documents of the editor (virtualfs/tempDocuments.ts) *)

Module TempDocuments.

Record TempDocument := mk {
  uri : string;
  documentId : string;
  createdAt : Z;
  content : string
}.

(** The module-level [Map<string, TempDocument>]. *)
Abbreviation t := (gmap string TempDocument).

(** [createTempDocument]: [docUri] is the URI of the untitled document that
    VS Code opens and [now] the clock reading of [new Date()]. *)
Definition createTempDocument (documentId content docUri : string) (now : Z)
    (tempDocuments : t) : t :=
  <[documentId := {| uri := docUri; documentId := documentId;
                     createdAt := now; content := content |}]> tempDocuments.

(** [tempDocuments.get(documentId)] : [undefined] for a missing key. *)
Definition getTempDocument (documentId : string) (tempDocuments : t)
    : option TempDocument :=
  tempDocuments !! documentId.

Definition removeTempDocument (documentId : string) (tempDocuments : t) : t :=
  delete documentId tempDocuments.

Definition clearTempDocuments (tempDocuments : t) : t := ∅.

End TempDocuments.

(** ** Ingestion (pipeline/controller.py) *)

Module Controller.

(** [str(n)] of a non-negative integer, as an f-string prints it. *)
Definition str (n : nat) : string := NilZero.string_of_uint (Nat.to_uint n).

(** Python's [str.strip()] removes the characters of [str.isspace] from both
    ends: U+0009 to U+000D, U+001C to U+0020, U+0085, U+00A0, U+1680, U+2000
    to U+200A, U+2028, U+2029, U+202F, U+205F and U+3000.  The text is read
    as UTF-8, where the first group is one byte each, U+0085 and U+00A0 are
    two (C2 85, C2 A0) and the others three (E1 9A 80; E2 80 80 to 8A, A8,
    A9, AF; E2 81 9F; E3 80 80). *)
Definition is_space (a : ascii) : bool :=
  let n := nat_of_ascii a in
  ((9 <=? n)%nat && (n <=? 13)%nat) || ((28 <=? n)%nat && (n <=? 32)%nat).

Definition is_space2 (a b : ascii) : bool :=
  let m := nat_of_ascii b in
  (nat_of_ascii a =? 194)%nat && ((m =? 133)%nat || (m =? 160)%nat).

Definition is_space3 (a b c : ascii) : bool :=
  let x := nat_of_ascii a in
  let y := nat_of_ascii b in
  let z := nat_of_ascii c in
  ((x =? 225)%nat && (y =? 154)%nat && (z =? 128)%nat) ||
  ((x =? 226)%nat && (y =? 128)%nat &&
   (((128 <=? z)%nat && (z <=? 138)%nat) || (z =? 168)%nat || (z =? 169)%nat ||
    (z =? 175)%nat)) ||
  ((x =? 226)%nat && (y =? 129)%nat && (z =? 159)%nat) ||
  ((x =? 227)%nat && (y =? 128)%nat && (z =? 128)%nat).

Fixpoint lstrip (s : string) : string :=
  match s with
  | EmptyString => EmptyString
  | String a rest =>
      if is_space a then lstrip rest
      else match rest with
           | String b rest2 =>
               if is_space2 a b then lstrip rest2
               else match rest2 with
                    | String c rest3 => if is_space3 a b c then lstrip rest3 else s
                    | EmptyString => s
                    end
           | EmptyString => s
           end
  end.

(** [lstrip] on a text given last byte first. *)
Fixpoint lstrip_reversed (s : string) : string :=
  match s with
  | EmptyString => EmptyString
  | String c rest =>
      if is_space c then lstrip_reversed rest
      else match rest with
           | String b rest2 =>
               if is_space2 b c then lstrip_reversed rest2
               else match rest2 with
                    | String a rest3 =>
                        if is_space3 a b c then lstrip_reversed rest3 else s
                    | EmptyString => s
                    end
           | EmptyString => s
           end
  end.

Definition strip (s : string) : string :=
  String.rev (lstrip_reversed (String.rev (lstrip s))).

(** One entry of [pdf_page.get_text("blocks")]:
    [(x0, y0, x1, y1, text, block_no, block_type)]. *)
Record TextBlock := mkTextBlock {
  x0 : Q; y0 : Q; x1 : Q; y1 : Q;
  text : string;
  block_no : Z;
  block_type : Z
}.

(** A page of an opened PDF: its size and its text blocks. *)
Record PdfPage := mkPdfPage {
  page_width : Q;
  page_height : Q;
  text_blocks : list TextBlock
}.

(** The block built in the inner loop of [_ingest_pdf] for the block at
    position [idx] of page [page_num] (both counted from 0).  The width
    and height of the box, elided in the source, are the differences of
    the corners. *)
Definition pdf_block (page_num idx : nat) (block : TextBlock) : Block.t :=
  {| Block.id := "p" ++ str (page_num + 1) ++ "_b" ++ str idx;
     Block.type := if (block_type block =? 0)%Z then paragraph else figure;
     Block.content := strip (text block);
     Block.bbox := {| BoundingBox.x := x0 block; BoundingBox.y := y0 block;
                      BoundingBox.width := x1 block - x0 block;
                      BoundingBox.height := y1 block - y0 block |};
     Block.confidence := 1 |}.

(** [for idx, block in enumerate(text_blocks): blocks.append(Block(...))] *)
Definition pdf_blocks (page_num : nat) (blocks : list TextBlock) : list Block.t :=
  imap (pdf_block page_num) blocks.

(** Modelled from the spec: the [Page] built for each PDF page.  The quoted
    loop [for page_num in range(len(pdf_document))] is in the sources, the
    construction of the page is not; by the data model a page carries a
    1-based [page_number], here [page_num + 1] as in the block ids. *)
Definition _ingest_pdf (pdf_document : list PdfPage) : list Page.t :=
  imap (fun page_num pdf_page =>
          {| Page.page_number := page_num + 1;
             Page.width := page_width pdf_page;
             Page.height := page_height pdf_page;
             Page.blocks := pdf_blocks page_num (text_blocks pdf_page) |})
       pdf_document.

(** An opened image: [mode], size, and what [pytesseract.image_to_string]
    reads from it once it is in RGB mode. *)
Record Image := mkImage {
  mode : string;
  width : Q;
  height : Q;
  image_to_string : string
}.

(** [image.convert("RGB")] when the mode differs. *)
Definition to_rgb (image : Image) : Image :=
  if String.eqb (mode image) "RGB" then image
  else {| mode := "RGB"; width := width image; height := height image;
          image_to_string := image_to_string image |}.

(** The block list built by the image path. *)
Definition image_blocks (image : Image) : list Block.t :=
  let image := to_rgb image in
  let text := image_to_string image in
  [ {| Block.id := "b1";
       Block.type := paragraph;
       Block.content := strip text;
       Block.bbox := {| BoundingBox.x := 0; BoundingBox.y := 0;
                        BoundingBox.width := width image;
                        BoundingBox.height := height image |};
       Block.confidence := 8 # 10 |} ].

(** Modelled from the spec: the single [Page] of an image input (the image
    variant treats the whole input as one page). *)
Definition _ingest_image (image : Image) : list Page.t :=
  [ {| Page.page_number := 1;
       Page.width := width image;
       Page.height := height image;
       Page.blocks := image_blocks image |} ].

(** What the pipeline is given once the loader has opened the bytes. *)
Inductive Input :=
  | Pdf (pdf_document : list PdfPage)
  | Picture (image : Image).

(** Modelled from the spec: [process] hands a PDF to [_ingest_pdf] and an
    image to [_ingest_image] and wraps the pages into a [Document]. *)
Definition process (document_id filename mime_type : string) (input : Input)
    : Document.t :=
  {| Document.document_id := document_id;
     Document.filename := filename;
     Document.mime_type := mime_type;
     Document.pages := match input with
                       | Pdf pdf_document => _ingest_pdf pdf_document
                       | Picture image => _ingest_image image
                       end |}.

(** The id the Block Assembler is specified to assign. *)
Definition assembler_id (page index : nat) : string :=
  "p" ++ str page ++ "_b" ++ str index.

End Controller.

(** ** The query endpoint (api/query.py) *)

Module Query.

Inductive Mode := keyword | regex | semantic.

Record PerceptionQuery := mkQuery {
  document_id : string;
  query : string;
  mode : Mode;
  page_range : option (Z * Z);
  block_types : option (list BlockType);
  max_results : Z
}.

(** One result.  Besides the fields the data model lists, a result keeps
    the type of its block and the position of the block in the reading
    order of its page: [apply_filters] is given only the results and the
    query, and the ordering of the results refers to that position. *)
Record QueryResult := mkResult {
  block_id : string;
  page_number : nat;
  block_index : nat;
  block_type : BlockType;
  matched_text : string;
  score : Q;
  context : string
}.

Record QueryResponse := mkResponse { results : list QueryResult }.

Inductive Error :=
  | HTTPException (status_code : Z) (detail : string)
  | InvalidQueryError (pattern : string).

(** A Python call either returns or raises. *)
Inductive Result (A : Type) :=
  | Ok (value : A)
  | Raise (error : Error).
Arguments Ok {A} value.
Arguments Raise {A} error.

Definition bind {A B : Type} (r : Result A) (k : A -> Result B) : Result B :=
  match r with
  | Ok value => k value
  | Raise error => Raise error
  end.

Notation "'let*' x ':=' r 'in' k" := (bind r (fun x => k))
  (at level 10, x name, r at level 100, k at level 200).

(** Python's [l[:n]]: the first [n] elements, and for a negative [n] all
    but the last [-n]. *)
Definition slice_to {A : Type} (l : list A) (n : Z) : list A :=
  if (0 <=? n)%Z then firstn (Z.to_nat n) l
  else firstn (Z.to_nat (Z.of_nat (length l) + n)) l.

Section Endpoint.
(** The three helpers that [query_document] calls. *)
Variable keyword_search : Document.t -> string -> list QueryResult.
Variable regex_search : Document.t -> string -> Result (list QueryResult).
Variable apply_filters : list QueryResult -> PerceptionQuery -> list QueryResult.

(** Step 2 of [query_document]: the search chosen by [query.mode]; any
    other mode leaves [results = []]. *)
Definition execute_query (doc : Document.t) (query : PerceptionQuery)
    : Result (list QueryResult) :=
  match mode query with
  | keyword => Ok (keyword_search doc (Query.query query))
  | regex => regex_search doc (Query.query query)
  | semantic => Ok []
  end.

Definition query_document (document_store : DocumentStore.t)
    (query : PerceptionQuery) : Result QueryResponse :=
  match DocumentStore.get (document_id query) document_store with
  | None => Raise (HTTPException 404 "Document not found")
  | Some doc =>
      let* results := execute_query doc query in
      let results := apply_filters results query in
      Ok {| results := slice_to results (max_results query) |}
  end.
End Endpoint.

(** *** The helpers, which the sources only name *)

(** The regular-expression library the regex mode relies on: compiling a
    pattern fails on a syntactically invalid one, and searching a text
    returns the matched part. *)
Record RegexLib := mkRegexLib {
  Pattern : Type;
  compile : string -> option Pattern;
  search : Pattern -> string -> option string
}.

(** How many positions of [text] start an occurrence of [needle]. *)
Fixpoint occurrences (needle text : string) : nat :=
  match text with
  | EmptyString => 0
  | String _ rest =>
      (if String.prefix needle text then 1 else 0) + occurrences needle rest
  end.

(** Modelled from the spec: the keyword score, matched occurrences over
    block length, with full-text equality scoring 1. *)
Definition keyword_score (needle text : string) : Q :=
  if String.eqb text needle then 1%Q
  else Z.of_nat (occurrences needle text) # Pos.of_nat (String.length text).

(** Modelled from the spec: the keyword mode is a case-insensitive
    substring match against the text of a block. *)
Definition keyword_hit (q : string) (block : Block.t) : option (string * Q) :=
  let needle := lowercase q in
  let text := lowercase (Block.content block) in
  if String.eqb text needle || (0 <? occurrences needle text)%nat
  then Some (Block.content block, keyword_score needle text)
  else None.

(** Modelled from the spec: the regex mode matches the compiled pattern
    against the text of a block.  The spec gives no score for a regex
    match; the model scores every match 1. *)
Definition regex_hit (re : RegexLib) (pattern : Pattern re) (block : Block.t)
    : option (string * Q) :=
  match search re pattern (Block.content block) with
  | Some matched => Some (matched, 1%Q)
  | None => None
  end.

(** The blocks of a page that a mode matches, in reading order. *)
Definition page_hits (hit : Block.t -> option (string * Q)) (page : Page.t)
    : list QueryResult :=
  concat (imap (fun idx block =>
                  match hit block with
                  | Some (matched, sc) =>
                      [ {| block_id := Block.id block;
                           page_number := Page.page_number page;
                           block_index := idx;
                           block_type := Block.type block;
                           matched_text := matched;
                           score := sc;
                           context := Block.content block |} ]
                  | None => []
                  end) (Page.blocks page)).

Definition document_hits (hit : Block.t -> option (string * Q)) (doc : Document.t)
    : list QueryResult :=
  concat (map (page_hits hit) (Document.pages doc)).

(** Modelled from the spec: the result order, descending score first, then
    ascending page number, then ascending position in the reading order. *)
Definition ranks_beforeb (a b : QueryResult) : bool :=
  match Qcompare (score a) (score b) with
  | Gt => true
  | Lt => false
  | Eq => (page_number a <? page_number b)%nat ||
          ((page_number a =? page_number b)%nat &&
           (block_index a <=? block_index b)%nat)
  end.

Fixpoint insert_ranked (r : QueryResult) (l : list QueryResult) : list QueryResult :=
  match l with
  | [] => [r]
  | h :: t => if ranks_beforeb r h then r :: h :: t else h :: insert_ranked r t
  end.

Definition rank (l : list QueryResult) : list QueryResult :=
  fold_right insert_ranked [] l.

(** Modelled from the spec: [keyword_search], the ranked keyword matches. *)
Definition keyword_search (doc : Document.t) (q : string) : list QueryResult :=
  rank (document_hits (keyword_hit q) doc).

(** Modelled from the spec: [regex_search], which fails the request with
    [InvalidQueryError] when the pattern does not compile. *)
Definition regex_search (re : RegexLib) (doc : Document.t) (pattern : string)
    : Result (list QueryResult) :=
  match compile re pattern with
  | None => Raise (InvalidQueryError pattern)
  | Some compiled => Ok (rank (document_hits (regex_hit re compiled) doc))
  end.

(** Modelled from the spec: the two filters of a query; an absent filter
    keeps everything, a page range keeps its two ends. *)
Definition in_page_range (q : PerceptionQuery) (r : QueryResult) : bool :=
  match page_range q with
  | None => true
  | Some (first, last) =>
      (first <=? Z.of_nat (page_number r))%Z && (Z.of_nat (page_number r) <=? last)%Z
  end.

Definition in_block_types (q : PerceptionQuery) (r : QueryResult) : bool :=
  match block_types q with
  | None => true
  | Some types => bool_decide (block_type r ∈ types)
  end.

Definition keeps (q : PerceptionQuery) (r : QueryResult) : bool :=
  in_page_range q r && in_block_types q r.

(** Modelled from the spec: [apply_filters]. *)
Definition apply_filters (results : list QueryResult) (q : PerceptionQuery)
    : list QueryResult :=
  List.filter (keeps q) results.

(** The endpoint with the modelled helpers in place. *)
Definition query_engine (re : RegexLib) : DocumentStore.t -> PerceptionQuery
    -> Result QueryResponse :=
  query_document keyword_search (regex_search re) apply_filters.


End Query.

(** ** A small regular-expression library

    An instance of [Query.RegexLib] to run the regex mode on: literals, the
    dot, postfix star, alternation with a bar, grouping with parentheses and
    a backslash that makes the next character a literal.  Patterns are matched
    by derivatives; a search returns the longest match at the leftmost
    position that has one. *)

Module MiniRe.

Inductive re :=
  | Never | Eps | Chr (a : ascii) | Any
  | Cat (r1 r2 : re) | Alt (r1 r2 : re) | Star (r : re).

Fixpoint nullable (r : re) : bool :=
  match r with
  | Never | Chr _ | Any => false
  | Eps | Star _ => true
  | Cat r1 r2 => nullable r1 && nullable r2
  | Alt r1 r2 => nullable r1 || nullable r2
  end.

Fixpoint deriv (a : ascii) (r : re) : re :=
  match r with
  | Never | Eps => Never
  | Chr b => if Ascii.eqb a b then Eps else Never
  | Any => Eps
  | Cat r1 r2 =>
      if nullable r1 then Alt (Cat (deriv a r1) r2) (deriv a r2)
      else Cat (deriv a r1) r2
  | Alt r1 r2 => Alt (deriv a r1) (deriv a r2)
  | Star r1 => Cat (deriv a r1) (Star r1)
  end.

Definition lparen : ascii := ascii_of_nat 40.
Definition rparen : ascii := ascii_of_nat 41.
Definition star : ascii := ascii_of_nat 42.
Definition bar : ascii := ascii_of_nat 124.
Definition backslash : ascii := ascii_of_nat 92.

Section Grammar.
(** The parser of a parenthesised group, one nesting level down. *)
Variable group : string -> option (re * string).

Definition atom (s : string) : option (re * string) :=
  match s with
  | EmptyString => None
  | String c rest =>
      if Ascii.eqb c lparen then
        match group rest with
        | Some (r, String d rest') =>
            if Ascii.eqb d rparen then Some (r, rest') else None
        | _ => None
        end
      else if Ascii.eqb c rparen || Ascii.eqb c bar || Ascii.eqb c star then None
      else if Ascii.eqb c dot then Some (Any, rest)
      else if Ascii.eqb c backslash then
        match rest with
        | String d rest' => Some (Chr d, rest')
        | EmptyString => None
        end
      else Some (Chr c, rest)
  end.

Fixpoint stars (r : re) (s : string) : re * string :=
  match s with
  | String c rest => if Ascii.eqb c star then stars (Star r) rest else (r, s)
  | EmptyString => (r, s)
  end.

(** A sequence of at most [n] starred atoms, up to a bar, a closing
    parenthesis or the end. *)
Fixpoint sequence (n : nat) (s : string) : option (re * string) :=
  match s with
  | EmptyString => Some (Eps, s)
  | String c _ =>
      if Ascii.eqb c rparen || Ascii.eqb c bar then Some (Eps, s)
      else match n with
           | O => None
           | S n' =>
               match atom s with
               | Some (r, rest) =>
                   let (r, rest) := stars r rest in
                   match sequence n' rest with
                   | Some (r', rest') => Some (Cat r r', rest')
                   | None => None
                   end
               | None => None
               end
           end
  end.

Fixpoint alternatives (n : nat) (s : string) : option (re * string) :=
  match sequence (String.length s) s with
  | Some (r, String c rest) =>
      if Ascii.eqb c bar then
        match n with
        | O => None
        | S n' =>
            match alternatives n' rest with
            | Some (r', rest') => Some (Alt r r', rest')
            | None => None
            end
        end
      else Some (r, String c rest)
  | parsed => parsed
  end.
End Grammar.

Fixpoint parse (depth : nat) (s : string) : option (re * string) :=
  match depth with
  | O => None
  | S depth' => alternatives (parse depth') (String.length s) s
  end.

Definition compile (pattern : string) : option re :=
  match parse (S (String.length pattern)) pattern with
  | Some (r, EmptyString) => Some r
  | _ => None
  end.

(** The length of the longest prefix of [s] that [r] matches. *)
Fixpoint longest (r : re) (s : string) : option nat :=
  let here := if nullable r then Some O else None in
  match s with
  | EmptyString => here
  | String a rest =>
      match longest (deriv a r) rest with
      | Some n => Some (S n)
      | None => here
      end
  end.

Fixpoint search (r : re) (s : string) : option string :=
  match longest r s with
  | Some n => Some (String.substring 0 n s)
  | None =>
      match s with
      | EmptyString => None
      | String _ rest => search r rest
      end
  end.

Definition lib : Query.RegexLib :=
  {| Query.Pattern := re; Query.compile := compile; Query.search := search |}.

End MiniRe.

(** ** Sample inputs *)

Module Sample.

Definition text_block (left top right bottom : Q) (text : string) (kind : Z)
    : Controller.TextBlock :=
  {| Controller.x0 := left; Controller.y0 := top;
     Controller.x1 := right; Controller.y1 := bottom;
     Controller.text := text; Controller.block_no := 0;
     Controller.block_type := kind |}.

(** A two-page PDF: an invoice and its terms. *)
Definition pdf : list Controller.PdfPage :=
  [ {| Controller.page_width := 612; Controller.page_height := 792;
       Controller.text_blocks :=
         [ text_block 72 72 540 100 "Invoice #1234 " 0;
           text_block 72 120 540 300 " Date: 2026-01-28" 0;
           text_block 72 320 540 500 "logo" 1 ] |};
    {| Controller.page_width := 612; Controller.page_height := 792;
       Controller.text_blocks :=
         [ text_block 72 72 540 100 "Terms of the invoice" 0;
           text_block 72 120 540 300 "invoice" 0 ] |} ].

Definition document : Document.t :=
  Controller.process "doc-1" "invoice.pdf" "application/pdf" (Controller.Pdf pdf).

(** A scanned page. *)
Definition scan : Controller.Image :=
  {| Controller.mode := "L"; Controller.width := 800; Controller.height := 600;
     Controller.image_to_string := "Invoice #1234
" |}.

Definition scanned : Document.t :=
  Controller.process "doc-2" "scan.png" "image/png" (Controller.Picture scan).

Definition store : gmap string Document.t :=
  DocumentStore.save document DocumentStore.init.

Definition ask (mode : Query.Mode) (text : string) (max_results : Z)
    : Query.PerceptionQuery :=
  {| Query.document_id := "doc-1"; Query.query := text; Query.mode := mode;
     Query.page_range := None; Query.block_types := None;
     Query.max_results := max_results |}.

End Sample.

(** ** Sequences of provider calls *)

Module ProviderOps.

(** The calls a client can make on the provider that change it. *)
Inductive Op :=
  | SetContent (uri content : string)
  | RemoveDocument (uri : string)
  | Clear
  | Dispose.

Definition step (p : AletheiaDocumentProvider.t) (op : Op) : AletheiaDocumentProvider.t :=
  match op with
  | SetContent uri content => AletheiaDocumentProvider.setContent uri content p
  | RemoveDocument uri => AletheiaDocumentProvider.removeDocument uri p
  | Clear => AletheiaDocumentProvider.clear p
  | Dispose => AletheiaDocumentProvider.dispose p
  end.

Definition run (ops : list Op) (p : AletheiaDocumentProvider.t)
    : AletheiaDocumentProvider.t :=
  fold_left step ops p.

(** The URIs of the [setContent] calls of a sequence, in order. *)
Definition announced (ops : list Op) : list string :=
  flat_map (fun op => match op with SetContent uri _ => [uri] | _ => [] end) ops.

(** What the most recent call that touches [uri] leaves there, reading the
    calls latest first: the text of a [setContent], nothing for a removal or
    a clearing call; [None] when no call touches [uri]. *)
Fixpoint latest (uri : string) (latest_first : list Op) : option string :=
  match latest_first with
  | [] => None
  | SetContent uri' content :: earlier =>
      if String.eqb uri' uri then Some content else latest uri earlier
  | RemoveDocument uri' :: earlier =>
      if String.eqb uri' uri then Some EmptyString else latest uri earlier
  | Clear :: _ | Dispose :: _ => Some EmptyString
  end.

End ProviderOps.

(** ** Temporary documents in insertion order

    [getTempDocumentIds] returns [Array.from(tempDocuments.keys())], and a
    JavaScript [Map] lists its keys in insertion order.  This second model of
    the module keeps the entries as a list in that order: [set] on a key
    that is present replaces the value where it stands, on a new key it
    appends; [delete] removes the entry. *)

Module TrackedDocuments.

Abbreviation t := (list (string * TempDocuments.TempDocument)).

Fixpoint map_set (key : string) (value : TempDocuments.TempDocument) (m : t) : t :=
  match m with
  | [] => [(key, value)]
  | (k, v) :: rest =>
      if String.eqb k key then (key, value) :: rest
      else (k, v) :: map_set key value rest
  end.

Fixpoint map_get (key : string) (m : t) : option TempDocuments.TempDocument :=
  match m with
  | [] => None
  | (k, v) :: rest => if String.eqb k key then Some v else map_get key rest
  end.

Definition map_delete (key : string) (m : t) : t :=
  List.filter (fun entry => negb (String.eqb (fst entry) key)) m.

Definition createTempDocument (documentId content docUri : string) (now : Z)
    (tempDocuments : t) : t :=
  map_set documentId
    {| TempDocuments.uri := docUri; TempDocuments.documentId := documentId;
       TempDocuments.createdAt := now; TempDocuments.content := content |}
    tempDocuments.

Definition getTempDocument (documentId : string) (tempDocuments : t)
    : option TempDocuments.TempDocument :=
  map_get documentId tempDocuments.

Definition removeTempDocument (documentId : string) (tempDocuments : t) : t :=
  map_delete documentId tempDocuments.

Definition clearTempDocuments (tempDocuments : t) : t := [].

Definition getTempDocumentIds (tempDocuments : t) : list string :=
  map fst tempDocuments.

(** The calls that change the module's map. *)
Inductive Op :=
  | Create (documentId content docUri : string) (now : Z)
  | Remove (documentId : string)
  | ClearAll.

Definition step (m : t) (op : Op) : t :=
  match op with
  | Create documentId content docUri now =>
      createTempDocument documentId content docUri now m
  | Remove documentId => removeTempDocument documentId m
  | ClearAll => clearTempDocuments m
  end.

Definition run (ops : list Op) : t := fold_left step ops [].

(** The same calls on the unordered model. *)
Definition step_unordered (m : gmap string TempDocuments.TempDocument) (op : Op)
    : gmap string TempDocuments.TempDocument :=
  match op with
  | Create documentId content docUri now =>
      TempDocuments.createTempDocument documentId content docUri now m
  | Remove documentId => TempDocuments.removeTempDocument documentId m
  | ClearAll => TempDocuments.clearTempDocuments m
  end.

End TrackedDocuments.

(** ** The insert-block command (commands/insertBlock.ts) *)

Module InsertBlock.

(** [let selectedBlock: string | undefined] *)
Record State := mkState { selectedBlock : option string }.

Definition setSelectedBlock (text : string) (s : State) : State :=
  {| selectedBlock := Some text |}.

Definition getSelectedBlock (s : State) : option string := selectedBlock s.

Definition clearSelectedBlock (s : State) : State := {| selectedBlock := None |}.

(** What the command asks of the editor, in order. *)
Inductive Effect :=
  | ShowWarningMessage (message : string)
  | ShowInputBox
  | Insert (text : string)
  | ShowInformationMessage (message : string).

(** [!value] for a [string | undefined]. *)
Definition falsy (value : option string) : bool :=
  match value with
  | None => true
  | Some text => String.eqb text EmptyString
  end.

(** [insertText(editor, text)]: the edit at the cursor, then the notice. *)
Definition insertText (text : string) : list Effect :=
  [Insert text; ShowInformationMessage "Block inserted"].

(** [activeEditor] tells whether [vscode.window.activeTextEditor] is set and
    [answer] is what the input box resolves to if it is shown. *)
Definition insertBlockCommand (activeEditor : bool) (answer : option string)
    (s : State) : State * list Effect :=
  if negb activeEditor then (s, [ShowWarningMessage "No active editor"])
  else if falsy (selectedBlock s) then
    if falsy answer then (s, [ShowInputBox])
    else match answer with
         | Some text => (s, ShowInputBox :: insertText text)
         | None => (s, [ShowInputBox])
         end
  else match selectedBlock s with
       | Some text => (clearSelectedBlock s, insertText text)
       | None => (s, [])
       end.

(** The texts a list of effects inserts. *)
Definition inserted (effects : list Effect) : list string :=
  flat_map (fun e => match e with Insert text => [text] | _ => [] end) effects.

End InsertBlock.

(** ** The sidecar process of the CLI integration *)

Module SidecarProcess.

(** [sidecarProcess] is the module variable; a child process is named by a
    handle.  The other fields record what the module has asked of the
    system: the processes spawned with their ports, the ones killed, and
    the ones whose close event has been handled. *)
Record State := mkState {
  sidecarProcess : option nat;
  spawned : list (nat * Z);
  killed : list nat;
  closed : list nat;
  warnings : list string
}.

Definition init : State :=
  {| sidecarProcess := None; spawned := []; killed := []; closed := []; warnings := [] |}.

(** [child] is the handle that [spawn] returns. *)
Definition startSidecarProcess (port : Z) (child : nat) (s : State) : State :=
  match sidecarProcess s with
  | Some _ =>
      {| sidecarProcess := sidecarProcess s; spawned := spawned s; killed := killed s;
         closed := closed s; warnings := warnings s ++ ["Sidecar is already running"] |}
  | None =>
      {| sidecarProcess := Some child; spawned := spawned s ++ [(child, port)];
         killed := killed s; closed := closed s; warnings := warnings s |}
  end.

Definition stopSidecarProcess (s : State) : State :=
  match sidecarProcess s with
  | Some child =>
      {| sidecarProcess := None; spawned := spawned s; killed := killed s ++ [child];
         closed := closed s; warnings := warnings s |}
  | None => s
  end.

(** The handler registered with [on('close', ...)] on the process [child]. *)
Definition on_close (child : nat) (s : State) : State :=
  {| sidecarProcess := None; spawned := spawned s; killed := killed s;
     closed := closed s ++ [child]; warnings := warnings s |}.

Definition isSidecarRunning (s : State) : bool :=
  match sidecarProcess s with Some _ => true | None => false end.

Inductive Event :=
  | Start (port : Z) (child : nat)
  | Stop
  | Close (child : nat).

Definition step (s : State) (e : Event) : State :=
  match e with
  | Start port child => startSidecarProcess port child s
  | Stop => stopSidecarProcess s
  | Close child => on_close child s
  end.



End SidecarProcess.

(** ** The tooltip of the overlay script *)

Module Overlay.

(** [text.length] and [text.substring] count UTF-16 code units, so a text of
    the page is taken here as the list of its code units. *)
Abbreviation JsString := (list N).

(** The three dots appended to a text that was cut. *)
Definition dots : JsString := [46%N; 46%N; 46%N].

(** [text.substring(0, n)] *)
Definition substring_to (n : nat) (text : JsString) : JsString := take n text.

(** The text that [showTooltip] puts into the tooltip for an element whose
    [dataset.text] is [text]; [None] when it returns without showing one
    (a missing and an empty text are both falsy). *)
Definition tooltipText (text : option JsString) : option JsString :=
  match text with
  | None => None
  | Some [] => None
  | Some t =>
      Some (substring_to 200 t ++ (if (200 <? length t)%nat then dots else []))%list
  end.

End Overlay.

(** ** The preview command (commands/preview.ts) *)

Module Preview.

(** [s.split(/[...]/)] for a class of one-character separators. *)
Fixpoint splitOn (sep : ascii -> bool) (s : string) : list string :=
  match s with
  | EmptyString => [EmptyString]
  | String a rest =>
      if sep a then EmptyString :: splitOn sep rest
      else match splitOn sep rest with
           | [] => [String a EmptyString]
           | piece :: pieces => String a piece :: pieces
           end
  end.

Definition slash : ascii := ascii_of_nat 47.
Definition backslash : ascii := ascii_of_nat 92.

(** The class of the two path separators. *)
Definition isSeparator (a : ascii) : bool :=
  Ascii.eqb a backslash || Ascii.eqb a slash.

(** [fileUri.fsPath.split(...).pop()] *)
Definition fileName (fsPath : string) : option string :=
  last (splitOn isSeparator fsPath).

(** The title of the panel; a missing name would print as undefined. *)
Definition panelTitle (fsPath : string) : string :=
  "Aletheia: " ++ match fileName fsPath with
                  | Some name => name
                  | None => "undefined"
                  end.

(** [s] holds no character of the class. *)
Fixpoint free_of (sep : ascii -> bool) (s : string) : bool :=
  match s with
  | EmptyString => true
  | String a rest => negb (sep a) && free_of sep rest
  end.

End Preview.

(** ** Properties the specification names *)

(** A lookup [get] on a store tells a missing key from a stored one when what
    it returns for a key the store does not hold differs from what it returns
    for that key in any store that holds it. *)
Definition distinguishes_missing {S V R : Type}
    (held : S -> gmap string V) (get : string -> S -> R) : Prop :=
  forall (s s' : S) (k : string),
    held s !! k = None -> is_Some (held s' !! k) -> get k s <> get k s'.

(** A check on files goes by content alone when files with the same bytes
    get the same answer, whatever they are called. *)
Definition content_only {R : Type} (check : ParseFile.File -> R) : Prop :=
  forall f1 f2 : ParseFile.File,
    ParseFile.bytes f1 = ParseFile.bytes f2 -> check f1 = check f2.

(* ===================================================================== *)
(** * Part II: properties                                                 *)
(* ===================================================================== *)

(** ** escapeHtml *)

Section EscapeHtml.
Import Renderer.

Lemma count_app c s1 s2 : count_char c (s1 ++ s2) = count_char c s1 + count_char c s2.
Proof. induction s1 as [|a s1 IH]; simpl; [reflexivity|]. rewrite IH. lia. Qed.

Lemma string_app_assoc (s1 s2 s3 : string) : (s1 ++ s2) ++ s3 = s1 ++ (s2 ++ s3).
Proof. induction s1 as [|a s1 IH]; simpl; [reflexivity|]. now rewrite IH. Qed.

Lemma replaceAll_app c r s1 s2 :
  replaceAll c r (s1 ++ s2) = replaceAll c r s1 ++ replaceAll c r s2.
Proof.
  induction s1 as [|a s1 IH]; simpl; [reflexivity|].
  destruct (Ascii.eqb a c); simpl; rewrite IH; [|reflexivity].
  now rewrite string_app_assoc.
Qed.

(** The five passes, taken together, treat the first character on its own:
    no pass rewrites what an earlier pass has produced for it, because the
    ampersand pass runs first and no entity holds a later pattern. *)
Lemma escapeHtml_cons a rest :
  escapeHtml (String a rest) = entity a ++ escapeHtml rest.
Proof.
  unfold escapeHtml, entity.
  destruct (Ascii.eqb_spec a amp) as [->|Hamp]; [reflexivity|].
  destruct (Ascii.eqb_spec a lt_sign) as [->|Hlt]; [reflexivity|].
  destruct (Ascii.eqb_spec a gt_sign) as [->|Hgt]; [reflexivity|].
  destruct (Ascii.eqb_spec a dquote) as [->|Hdq]; [reflexivity|].
  destruct (Ascii.eqb_spec a squote) as [->|Hsq]; [reflexivity|].
  apply Ascii.eqb_neq in Hamp, Hlt, Hgt, Hdq, Hsq.
  cbn [replaceAll]. rewrite Hamp. cbn [replaceAll]. rewrite Hlt.
  cbn [replaceAll]. rewrite Hgt. cbn [replaceAll]. rewrite Hdq.
  cbn [replaceAll]. rewrite Hsq. reflexivity.
Qed.

Lemma escapeHtml_escapeEach text : escapeHtml text = escapeEach text.
Proof.
  induction text as [|a rest IH]; [reflexivity|].
  rewrite escapeHtml_cons, IH. reflexivity.
Qed.

Lemma entity_no_markup a c : In c markup -> count_char c (entity a) = 0.
Proof.
  intros Hc. unfold entity.
  destruct (Ascii.eqb_spec a amp) as [->|Hamp];
    [simpl in Hc; intuition (subst; reflexivity)|].
  destruct (Ascii.eqb_spec a lt_sign) as [->|Hlt];
    [simpl in Hc; intuition (subst; reflexivity)|].
  destruct (Ascii.eqb_spec a gt_sign) as [->|Hgt];
    [simpl in Hc; intuition (subst; reflexivity)|].
  destruct (Ascii.eqb_spec a dquote) as [->|Hdq];
    [simpl in Hc; intuition (subst; reflexivity)|].
  destruct (Ascii.eqb_spec a squote) as [->|Hsq];
    [simpl in Hc; intuition (subst; reflexivity)|].
  simpl in Hc. simpl.
  destruct Hc as [<-|[<-|[<-|[<-|[]]]]];
    match goal with
    | H : a <> ?x |- context [Ascii.eqb a ?x] =>
        apply Ascii.eqb_neq in H; rewrite H; reflexivity
    end.
Qed.

Lemma escapeHtml_no_markup text c : In c markup -> count_char c (escapeHtml text) = 0.
Proof.
  intros Hc. induction text as [|a rest IH]; [reflexivity|].
  rewrite escapeHtml_cons, count_app, IH, entity_no_markup by assumption.
  reflexivity.
Qed.

Lemma count_blockTemplate c ty hole conf :
  count_char c (blockTemplate ty hole conf) =
  count_char c (blockTemplate ty EmptyString conf) + 3 * count_char c hole.
Proof.
  unfold blockTemplate. repeat rewrite count_app. simpl count_char. lia.
Qed.

(** The template itself, with nothing filled in for the text. *)
Lemma count_blockTemplate_blank ty conf :
  count_char lt_sign (blockTemplate ty EmptyString conf) = 12 + count_char lt_sign conf /\
  count_char gt_sign (blockTemplate ty EmptyString conf) = 12 + count_char gt_sign conf /\
  count_char dquote (blockTemplate ty EmptyString conf) = 14 + count_char dquote conf /\
  count_char squote (blockTemplate ty EmptyString conf) = 6 + count_char squote conf.
Proof.
  unfold blockTemplate. rewrite !count_app.
  generalize (count_char lt_sign conf), (count_char gt_sign conf),
    (count_char dquote conf), (count_char squote conf).
  intros k1 k2 k3 k4.
  destruct (String.eqb ty "heading");
    repeat match goal with
           | |- context [count_char ?c ?s] =>
               let v := eval vm_compute in (count_char c s) in
               change (count_char c s) with v
           end;
    repeat split; lia.
Qed.

End EscapeHtml.

(** C9. For every input string the result of [escapeHtml] holds none of the
    characters <, >, double quote and single quote; it is the text with each
    special character replaced by its entity (the ampersand pass runs first,
    so the ampersand of an entity is never escaped again); and [renderBlocks]
    embeds the text of every block only after [escapeHtml]: the output is the
    concatenation of the blocks' HTML in order, the HTML of one block is the
    text of the source's template with [escapeHtml(block.text)] at its three
    places, and it holds 12 <, 12 >, 14 double quotes and 6 single quotes
    besides those of the printed confidence, whatever the text of the block
    is. *)
Theorem escapeHtml_removes_markup_and_renderBlocks_escapes :
  (forall text : string,
      Forall (fun c => count_char c (Renderer.escapeHtml text) = 0) Renderer.markup) /\
  (forall text : string, Renderer.escapeHtml text = Renderer.escapeEach text) /\
  (forall (Confidence : Type) (percent : Confidence -> string)
          (blocks : list (Renderer.Block Confidence)),
      Renderer.renderBlocks Confidence percent blocks =
        fold_right String.append EmptyString
          (map (fun b => Renderer.blockTemplate
                           (Renderer.type Confidence b)
                           (Renderer.escapeEach (Renderer.text Confidence b))
                           (percent (Renderer.confidence Confidence b))) blocks) /\
      Forall (fun b =>
                Forall (fun c =>
                          count_char c (Renderer.renderBlock Confidence percent b) =
                          count_char c (Renderer.blockTemplate
                                              (Renderer.type Confidence b) EmptyString
                                              (percent (Renderer.confidence Confidence b))))
                       Renderer.markup) blocks) /\
  (forall (Confidence : Type) (percent : Confidence -> string)
          (blocks more : list (Renderer.Block Confidence)),
      Renderer.renderBlocks Confidence percent [] = EmptyString /\
      Renderer.renderBlocks Confidence percent (blocks ++ more)%list =
        Renderer.renderBlocks Confidence percent blocks ++
        Renderer.renderBlocks Confidence percent more) /\
  (forall (Confidence : Type) (percent : Confidence -> string)
          (b : Renderer.Block Confidence),
      Renderer.renderBlocks Confidence percent [b] =
        "
        <div class=" ++ String dquote "block " ++
        (if String.eqb (Renderer.type Confidence b) "heading" then "block-heading" else "") ++
        "" ++ String dquote "
             onclick=" ++ String dquote "this.classList.toggle('selected')" ++ String dquote ">
            <div class=" ++ String dquote "block-actions" ++ String dquote ">
                <button onclick=" ++ String dquote "insertBlock('" ++
        Renderer.escapeHtml (Renderer.text Confidence b) ++
        "')" ++ String dquote ">Insert</button>
                <button onclick=" ++ String dquote "copyBlock('" ++
        Renderer.escapeHtml (Renderer.text Confidence b) ++
        "')" ++ String dquote ">Copy</button>
            </div>
            <div class=" ++ String dquote "block-text" ++ String dquote ">" ++
        Renderer.escapeHtml (Renderer.text Confidence b) ++
        "</div>
            <div class=" ++ String dquote "confidence" ++ String dquote ">Confidence: " ++
        percent (Renderer.confidence Confidence b) ++
        "%</div>
        </div>
    ") /\
  (forall (Confidence : Type) (percent : Confidence -> string)
          (b : Renderer.Block Confidence),
      Forall2 (fun c k =>
                 count_char c (Renderer.renderBlocks Confidence percent [b]) =
                 k + count_char c (percent (Renderer.confidence Confidence b)))
              Renderer.markup [12; 12; 14; 6]).
Proof.
  assert (Hnil : forall u : string, u ++ EmptyString = u).
  { induction u as [|a u IH]; simpl; [reflexivity|]. now rewrite IH. }
  split; [|split; [|split; [|split; [|split]]]].
  - intros text. apply Forall_forall. intros c Hc.
    apply escapeHtml_no_markup. now apply list_elem_of_In.
  - apply escapeHtml_escapeEach.
  - intros Confidence percent blocks. split.
    + unfold Renderer.renderBlocks. f_equal. apply map_ext. intros b.
      unfold Renderer.renderBlock. now rewrite escapeHtml_escapeEach.
    + apply Forall_forall. intros b _. apply Forall_forall. intros c Hc.
      unfold Renderer.renderBlock. rewrite count_blockTemplate.
      rewrite escapeHtml_no_markup by now apply list_elem_of_In. lia.
  - intros Confidence percent blocks more. split; [reflexivity|].
    unfold Renderer.renderBlocks. rewrite map_app.
    induction (map (Renderer.renderBlock Confidence percent) blocks) as [|h t IH];
      cbn [fold_right app]; [reflexivity|].
    now rewrite IH, string_app_assoc.
  - intros Confidence percent b.
    unfold Renderer.renderBlocks. cbn [map fold_right]. rewrite Hnil. reflexivity.
  - intros Confidence percent b.
    unfold Renderer.renderBlocks. cbn [map fold_right]. rewrite Hnil.
    unfold Renderer.renderBlock.
    destruct (count_blockTemplate_blank (Renderer.type Confidence b)
                (percent (Renderer.confidence Confidence b))) as (Hlt & Hgt & Hdq & Hsq).
    (constructor; [|constructor; [|constructor; [|constructor; [|constructor]]]]);
      rewrite count_blockTemplate;
      (rewrite escapeHtml_no_markup by (simpl; tauto)); lia.
Qed.

Example renderBlocks_escaped_text :
  let html := Renderer.renderBlocks unit (fun _ => "95.0")
                [Renderer.mkBlock unit "paragraph" "<b>R&D</b>" tt] in
  Query.occurrences "&lt;b&gt;R&amp;D&lt;/b&gt;" html = 3 /\
  Query.occurrences ">&lt;b&gt;R&amp;D&lt;/b&gt;</div>" html = 1 /\
  Query.occurrences "<b>" html = 0 /\
  Query.occurrences "R&D" html = 0.
Proof. vm_compute. repeat split. Qed.

Example escapeHtml_script :
  Renderer.escapeHtml "<a href='x'>R&D</a>" =
  "&lt;a href=&#39;x&#39;&gt;R&amp;D&lt;/a&gt;".
Proof. vm_compute. reflexivity. Qed.

(** ** The virtual document provider *)

(** C10. After [setContent u c] the provider returns exactly [c] for [u];
    after [removeDocument u] or [clear] it returns the empty string for [u];
    and [setContent u c] changes neither the stored content nor the provided
    content of any other URI. *)
Theorem provider_setContent_provide_remove
    (p : AletheiaDocumentProvider.t) (u : AletheiaDocumentProvider.Uri) (c : string) :
  AletheiaDocumentProvider.provideTextDocumentContent u
    (AletheiaDocumentProvider.setContent u c p) = c /\
  AletheiaDocumentProvider.provideTextDocumentContent u
    (AletheiaDocumentProvider.removeDocument u p) = EmptyString /\
  AletheiaDocumentProvider.provideTextDocumentContent u
    (AletheiaDocumentProvider.clear p) = EmptyString /\
  (forall u' : AletheiaDocumentProvider.Uri, u' <> u ->
     AletheiaDocumentProvider.documents (AletheiaDocumentProvider.setContent u c p) !! u' =
       AletheiaDocumentProvider.documents p !! u' /\
     AletheiaDocumentProvider.provideTextDocumentContent u'
       (AletheiaDocumentProvider.setContent u c p) =
     AletheiaDocumentProvider.provideTextDocumentContent u' p).
Proof.
  unfold AletheiaDocumentProvider.provideTextDocumentContent,
    AletheiaDocumentProvider.setContent, AletheiaDocumentProvider.removeDocument,
    AletheiaDocumentProvider.clear; simpl.
  split; [|split; [|split]].
  - rewrite lookup_insert_eq. destruct (String.eqb_spec c EmptyString); congruence.
  - now rewrite lookup_delete_eq.
  - now rewrite lookup_empty.
  - intros u' Hne. rewrite lookup_insert_ne by congruence. split; reflexivity.
Qed.

Lemma provider_setContent_provide_remove_witness :
  let p := AletheiaDocumentProvider.setContent "aletheia:d2.md" "second"
             AletheiaDocumentProvider.create in
  "aletheia:d2.md" <> "aletheia:d1.md" /\
  AletheiaDocumentProvider.provideTextDocumentContent "aletheia:d1.md"
    (AletheiaDocumentProvider.setContent "aletheia:d1.md" "first" p) = "first" /\
  AletheiaDocumentProvider.provideTextDocumentContent "aletheia:d2.md"
    (AletheiaDocumentProvider.setContent "aletheia:d1.md" "first" p) = "second".
Proof.
  intros p.
  assert (Hne : "aletheia:d2.md" <> "aletheia:d1.md") by discriminate.
  destruct (provider_setContent_provide_remove p "aletheia:d1.md" "first")
    as (Hset & _ & _ & Hother).
  destruct (Hother "aletheia:d2.md" Hne) as [_ Hprov].
  split; [exact Hne|]. split; [exact Hset|].
  rewrite Hprov. vm_compute. reflexivity.
Defined.

Example provide_after_set :
  AletheiaDocumentProvider.provideTextDocumentContent "aletheia:d1.md"
    (AletheiaDocumentProvider.setContent "aletheia:d1.md" "# Parsed"
       AletheiaDocumentProvider.create) = "# Parsed".
Proof. vm_compute. reflexivity. Qed.

Example minire_compile_examples :
  MiniRe.compile "(" = None /\ MiniRe.compile "a)" = None /\ MiniRe.compile "*a" = None /\
  MiniRe.search MiniRe.Any "x" = Some "x" /\
  (exists r, MiniRe.compile "(ab|c)*d" = Some r /\
             MiniRe.search r "xxababcdyy" = Some "ababcd" /\
             MiniRe.search r "ab" = None).
Proof. vm_compute. repeat split. eexists. repeat split. Qed.

(** ** The parse command: which files it takes *)

Section SupportedFile.
Import ParseFile.

Lemma lowercase_app s1 s2 : lowercase (s1 ++ s2) = lowercase s1 ++ lowercase s2.
Proof. induction s1 as [|a s1 IH]; simpl; [reflexivity|]. now rewrite IH. Qed.

Lemma lowerChar_dot a : Ascii.eqb (lowerChar a) dot = Ascii.eqb a dot.
Proof. destruct a as [[] [] [] [] [] [] [] []]; reflexivity. Qed.

Lemma count_char_lowercase_dot s : count_char dot (lowercase s) = count_char dot s.
Proof.
  induction s as [|a s IH]; simpl; [reflexivity|].
  now rewrite lowerChar_dot, IH.
Qed.

Lemma split_nonempty c s : split c s <> [].
Proof.
  destruct s as [|a s]; simpl; [discriminate|].
  destruct (Ascii.eqb a c); [discriminate|].
  destruct (split c s); discriminate.
Qed.

(** Splitting distributes over a separator. *)
Lemma split_app_sep c s1 s2 :
  split c (s1 ++ String c s2) = (split c s1 ++ split c s2)%list.
Proof.
  induction s1 as [|a s1 IH]; simpl.
  - now rewrite Ascii.eqb_refl.
  - destruct (Ascii.eqb a c); [now rewrite IH|].
    rewrite IH. pose proof (split_nonempty c s1) as Hne.
    destruct (split c s1); [contradiction|reflexivity].
Qed.

Lemma split_no_sep c s : count_char c s = 0 -> split c s = [s].
Proof.
  induction s as [|a s IH]; simpl; [reflexivity|].
  destruct (Ascii.eqb a c); [discriminate|].
  intros H. now rewrite IH.
Qed.

Lemma last_app_nonempty {A : Type} (l1 l2 : list A) : l2 <> [] -> last (l1 ++ l2)%list = last l2.
Proof.
  intros Hne. destruct l2 as [|x l2 _] using rev_ind; [contradiction|].
  now rewrite app_assoc, !last_snoc.
Qed.

(** The piece that [isSupportedFile] looks at is what follows the last dot. *)
Lemma pop_split_extension base ext :
  count_char dot ext = 0 ->
  pop (split dot (toLowerCase (base ++ String dot ext))) = Some (lowercase ext).
Proof.
  intros Hext. unfold pop, toLowerCase.
  rewrite lowercase_app. simpl lowercase.
  replace (lowerChar dot) with dot by reflexivity.
  rewrite split_app_sep, last_app_nonempty by apply split_nonempty.
  rewrite split_no_sep by now rewrite count_char_lowercase_dot.
  reflexivity.
Qed.

End SupportedFile.

(** C5, as the claim states it, fails: two files with the same bytes and
    different names get different answers. *)
Lemma detect_is_not_content_only : ~ content_only ParseFile.detect.
Proof.
  intros H.
  specialize (H (ParseFile.mkFile "scan.pdf" [Byte.x25; Byte.x50])
                (ParseFile.mkFile "scan.txt" [Byte.x25; Byte.x50]) eq_refl).
  vm_compute in H. discriminate.
Qed.

(** C5, amended. The check of the parse command goes by the file name alone:
    files with the same path get the same answer whatever their bytes, and a
    path [base.ext] is taken exactly when [ext], lower-cased, is one of pdf,
    png, jpg, jpeg, tiff. *)
Theorem detect_goes_by_extension :
  (forall f1 f2 : ParseFile.File,
      ParseFile.fsPath f1 = ParseFile.fsPath f2 ->
      ParseFile.detect f1 = ParseFile.detect f2) /\
  (forall (base ext : string) (content : list Byte.byte),
      count_char dot ext = 0 ->
      ParseFile.detect (ParseFile.mkFile (base ++ String dot ext) content) =
      ParseFile.includes ParseFile.supported (lowercase ext)).
Proof.
  split.
  - intros f1 f2 Hpath. unfold ParseFile.detect. now rewrite Hpath.
  - intros base ext content Hext.
    unfold ParseFile.detect, ParseFile.isSupportedFile. simpl ParseFile.fsPath.
    rewrite pop_split_extension by assumption.
    destruct (String.eqb_spec (lowercase ext) EmptyString) as [->|_]; reflexivity.
Qed.

Lemma detect_goes_by_extension_witness :
  ParseFile.detect (ParseFile.mkFile "/home/u/Invoice.v2.PDF" [Byte.x00]) =
  ParseFile.detect (ParseFile.mkFile "/home/u/Invoice.v2.PDF" [Byte.x25; Byte.x50]) /\
  ParseFile.detect (ParseFile.mkFile "/home/u/Invoice.v2.PDF" [Byte.x00]) = true.
Proof.
  destruct detect_goes_by_extension as [Hname Hext]. split.
  - apply Hname. reflexivity.
  - apply (Hext "/home/u/Invoice.v2" "PDF" [Byte.x00]). reflexivity.
Defined.

(** ** Looking up a document that is not there *)

(** C4, as the claim states it, fails for the provider of virtual documents:
    for a URI it holds nothing for it returns the empty string, which is also
    what it returns for a URI whose content is the empty string. *)
Lemma provider_missing_is_ambiguous :
  ~ distinguishes_missing AletheiaDocumentProvider.documents
      AletheiaDocumentProvider.provideTextDocumentContent.
Proof.
  intros H.
  apply (H AletheiaDocumentProvider.create
           (AletheiaDocumentProvider.setContent "aletheia:d1.md" EmptyString
              AletheiaDocumentProvider.create)
           "aletheia:d1.md").
  - reflexivity.
  - exists EmptyString. vm_compute. reflexivity.
  - vm_compute. reflexivity.
Qed.

(** C4, amended. For an id that is not stored, [DocumentStore.get] returns
    [None] and [getTempDocument] returns [undefined], which no stored document
    is; [query_document] turns the missing document into the error 404
    Document not found; only the provider of virtual documents answers a
    missing URI with the empty string. *)
Theorem store_get_missing
    (keyword_search : Document.t -> string -> list Query.QueryResult)
    (regex_search : Document.t -> string -> Query.Result (list Query.QueryResult))
    (apply_filters : list Query.QueryResult -> Query.PerceptionQuery -> list Query.QueryResult) :
  distinguishes_missing (fun s : DocumentStore.t => s) DocumentStore.get /\
  distinguishes_missing (fun s : TempDocuments.t => s) TempDocuments.getTempDocument /\
  (forall (store : DocumentStore.t) (id : string),
      store !! id = None -> DocumentStore.get id store = None) /\
  (forall (temp : TempDocuments.t) (id : string),
      temp !! id = None -> TempDocuments.getTempDocument id temp = None) /\
  (forall (store : DocumentStore.t) (q : Query.PerceptionQuery),
      store !! Query.document_id q = None ->
      Query.query_document keyword_search regex_search apply_filters store q =
      Query.Raise (Query.HTTPException 404 "Document not found")) /\
  (forall (p : AletheiaDocumentProvider.t) (u : string),
      AletheiaDocumentProvider.documents p !! u = None ->
      AletheiaDocumentProvider.provideTextDocumentContent u p = EmptyString).
Proof.
  split; [|split; [|split; [|split; [|split]]]].
  - intros s s' k Hnone [d Hsome]. unfold DocumentStore.get.
    cbv beta in Hnone, Hsome. congruence.
  - intros s s' k Hnone [d Hsome]. unfold TempDocuments.getTempDocument.
    cbv beta in Hnone, Hsome. congruence.
  - intros store id H. exact H.
  - intros temp id H. exact H.
  - intros store q H. unfold Query.query_document, DocumentStore.get. now rewrite H.
  - intros p u H. unfold AletheiaDocumentProvider.provideTextDocumentContent.
    now rewrite H.
Qed.

Lemma store_get_missing_witness :
  DocumentStore.get "doc-2" Sample.store <>
    DocumentStore.get "doc-2" (DocumentStore.save Sample.scanned Sample.store) /\
  Query.query_engine MiniRe.lib Sample.store
    {| Query.document_id := "doc-2"; Query.query := "invoice"; Query.mode := Query.keyword;
       Query.page_range := None; Query.block_types := None; Query.max_results := 10 |} =
  Query.Raise (Query.HTTPException 404 "Document not found").
Proof.
  destruct (store_get_missing Query.keyword_search (Query.regex_search MiniRe.lib)
              Query.apply_filters) as (Hstore & _ & _ & _ & Hquery & _).
  split.
  - apply Hstore.
    + vm_compute. reflexivity.
    + eexists. vm_compute. reflexivity.
  - apply Hquery. vm_compute. reflexivity.
Defined.

(** ** Ingestion: block ids and page numbers *)

Section Ingestion.
Import Controller.

(** The PDF path gives the block at position [i] of page [p] (counted from
    0) the id of the assembler for page number [p + 1] and index [i]. *)
Lemma pdf_block_ids (pdf_document : list PdfPage) (p i : nat)
    (page : Page.t) (block : Block.t) :
  _ingest_pdf pdf_document !! p = Some page ->
  Page.blocks page !! i = Some block ->
  Page.page_number page = p + 1 /\
  Block.id block = assembler_id (Page.page_number page) i.
Proof.
  unfold _ingest_pdf. intros Hpage Hblock.
  apply list_lookup_imap_Some in Hpage as (pdf_page & _ & ->).
  simpl in *. unfold pdf_blocks in Hblock.
  apply list_lookup_imap_Some in Hblock as (raw & _ & ->).
  split; reflexivity.
Qed.

Lemma ingest_pdf_page_number (pdf_document : list PdfPage) (i : nat) (page : Page.t) :
  _ingest_pdf pdf_document !! i = Some page -> Page.page_number page = i + 1.
Proof.
  unfold _ingest_pdf. intros Hpage.
  apply list_lookup_imap_Some in Hpage as (pdf_page & _ & ->). reflexivity.
Qed.

Lemma pages_lookup (input : Input) (id name mime : string) (i : nat) (page : Page.t) :
  Document.pages (process id name mime input) !! i = Some page ->
  Page.page_number page = i + 1.
Proof.
  destruct input as [pdf_document|image]; simpl.
  - apply ingest_pdf_page_number.
  - destruct i as [|i]; simpl; [|discriminate].
    intros [= <-]. reflexivity.
Qed.

(** A list whose element at each position [i] carries the number [i + 1]
    carries the numbers 1, 2, ... in order. *)
Lemma numbered_from_one (pages : list Page.t) :
  (forall i page, pages !! i = Some page -> Page.page_number page = i + 1) ->
  map Page.page_number pages = seq 1 (length pages).
Proof.
  intros Hnum. apply list_eq. intros i.
  rewrite list_lookup_fmap.
  destruct (pages !! i) as [page|] eqn:Hi; simpl.
  - rewrite (Hnum _ _ Hi).
    symmetry. rewrite lookup_seq. split; [lia|].
    now apply lookup_lt_Some in Hi.
  - symmetry. apply lookup_ge_None. rewrite length_seq.
    now apply lookup_ge_None in Hi.
Qed.

End Ingestion.

(** C6 at the image path: whatever the image, its single block gets the id
    b1, which is not the id of the assembler for any page and index. *)
Theorem ingest_image_block_id (image : Controller.Image) :
  map Block.id (concat (map Page.blocks (Controller._ingest_image image))) = ["b1"] /\
  (forall page index : nat, "b1" <> Controller.assembler_id page index).
Proof.
  split; [reflexivity|].
  intros page index. unfold Controller.assembler_id. simpl. discriminate.
Qed.

(** C7. In every document the pipeline produces, the page at position [i]
    carries the number [i + 1]: the page numbers are 1, 2, 3, ... in order,
    so they start at 1, increase strictly and leave no gap; and a PDF keeps
    one page per page of the input. *)
Theorem page_numbers_follow_positions
    (document_id filename mime_type : string) (input : Controller.Input) :
  let pages := Document.pages (Controller.process document_id filename mime_type input) in
  (forall (i : nat) (page : Page.t),
      pages !! i = Some page -> Page.page_number page = i + 1) /\
  map Page.page_number pages = seq 1 (length pages) /\
  (forall (i j : nat) (pi pj : Page.t),
      pages !! i = Some pi -> pages !! j = Some pj -> i < j ->
      Page.page_number pi < Page.page_number pj) /\
  (forall pdf_document : list Controller.PdfPage,
      input = Controller.Pdf pdf_document -> length pages = length pdf_document).
Proof.
  intros pages.
  assert (Hnum : forall i page, pages !! i = Some page -> Page.page_number page = i + 1)
    by (intros i page; apply pages_lookup).
  split; [exact Hnum|]. split; [now apply numbered_from_one|]. split.
  - intros i j pi pj Hi Hj Hlt. rewrite (Hnum _ _ Hi), (Hnum _ _ Hj). lia.
  - intros pdf_document ->. subst pages. simpl.
    unfold Controller._ingest_pdf. apply length_imap.
Qed.

Lemma page_numbers_follow_positions_witness :
  map Page.page_number (Document.pages Sample.document) = [1; 2] /\
  (exists page, Document.pages Sample.document !! 1 = Some page /\
                Page.page_number page = 2) /\
  length (Document.pages Sample.document) = 2.
Proof.
  destruct (page_numbers_follow_positions "doc-1" "invoice.pdf" "application/pdf"
              (Controller.Pdf Sample.pdf)) as (Hnum & Hseq & _ & Hlen).
  split; [exact Hseq|]. split.
  - destruct (Document.pages Sample.document !! 1) as [page|] eqn:Hpage.
    + exists page. split; [reflexivity|]. exact (Hnum 1 page Hpage).
    + vm_compute in Hpage. discriminate.
  - exact (Hlen Sample.pdf eq_refl).
Defined.

Example sample_block_ids :
  map (fun page => map Block.id (Page.blocks page)) (Document.pages Sample.document) =
    [["p1_b0"; "p1_b1"; "p1_b2"]; ["p2_b0"; "p2_b1"]] /\
  map (fun page => map Block.content (Page.blocks page)) (Document.pages Sample.scanned) =
    [["Invoice #1234"]].
Proof. vm_compute. split; reflexivity. Qed.

(** ** The query endpoint *)

Section Slices.
Context {A : Type}.

Lemma slice_to_take (l : list A) (n : Z) :
  exists k, Query.slice_to l n = take k l.
Proof. unfold Query.slice_to. destruct (0 <=? n)%Z; eauto. Qed.

Lemma slice_to_prefix (l : list A) (n : Z) :
  exists dropped, l = (Query.slice_to l n ++ dropped)%list.
Proof.
  destruct (slice_to_take l n) as [k ->].
  exists (drop k l). now rewrite take_drop.
Qed.

Lemma slice_to_length (l : list A) (n : Z) :
  (0 <= n)%Z -> length (Query.slice_to l n) = Nat.min (Z.to_nat n) (length l).
Proof.
  intros Hn. unfold Query.slice_to.
  destruct (Z.leb_spec 0 n) as [_|Hneg]; [|lia].
  apply length_take.
Qed.


End Slices.

Section Ranking.
Import Query.







(** Ranking reorders; it neither drops nor invents a result. *)
Lemma insert_ranked_perm r l : insert_ranked r l ≡ₚ r :: l.
Proof.
  induction l as [|h t IH]; simpl; [reflexivity|].
  destruct (ranks_beforeb r h); [reflexivity|].
  rewrite IH. apply Permutation_swap.
Qed.

Lemma rank_perm l : rank l ≡ₚ l.
Proof.
  induction l as [|r l IH]; simpl; [reflexivity|].
  now rewrite insert_ranked_perm, IH.
Qed.


End Ranking.

(** C1. For a stored document, once the search of the query's mode has
    returned its matches, the response of [query_document] is the front of
    the list of matches that pass the filters, cut at [max_results]: every
    result in the response passes the filters, the response is a prefix of
    the filtered matches, and for a non-negative [max_results] it has
    min(max_results, number of filtered matches) entries, so a match that a
    filter removes takes no place in it.  (The filter is any helper that
    keeps exactly the results a predicate [keep] accepts.) *)
Theorem filters_apply_before_truncation
    (keyword_search : Document.t -> string -> list Query.QueryResult)
    (regex_search : Document.t -> string -> Query.Result (list Query.QueryResult))
    (apply_filters : list Query.QueryResult -> Query.PerceptionQuery -> list Query.QueryResult)
    (keep : Query.PerceptionQuery -> Query.QueryResult -> bool)
    (store : gmap string Document.t) (q : Query.PerceptionQuery)
    (doc : Document.t) (matches : list Query.QueryResult) :
  (forall rs q', apply_filters rs q' = List.filter (keep q') rs) ->
  DocumentStore.get (Query.document_id q) store = Some doc ->
  Query.execute_query keyword_search regex_search doc q = Query.Ok matches ->
  exists response : Query.QueryResponse,
    Query.query_document keyword_search regex_search apply_filters store q =
      Query.Ok response /\
    Query.results response =
      Query.slice_to (List.filter (keep q) matches) (Query.max_results q) /\
    (exists dropped,
        List.filter (keep q) matches = (Query.results response ++ dropped)%list) /\
    Forall (fun r => keep q r = true) (Query.results response) /\
    ((0 <= Query.max_results q)%Z ->
     length (Query.results response) =
       Nat.min (Z.to_nat (Query.max_results q)) (length (List.filter (keep q) matches))).
Proof.
  intros Hfilter Hdoc Hmatches.
  eexists. split.
  { unfold Query.query_document. rewrite Hdoc, Hmatches. simpl. reflexivity. }
  simpl. rewrite Hfilter.
  split; [reflexivity|]. split; [apply slice_to_prefix|]. split.
  - destruct (slice_to_take (List.filter (keep q) matches) (Query.max_results q))
      as [k ->].
    apply Forall_take, Forall_forall. intros r Hr.
    apply list_elem_of_In, filter_In in Hr. tauto.
  - apply slice_to_length.
Qed.

Lemma filters_apply_before_truncation_witness :
  let q := {| Query.document_id := "doc-1"; Query.query := "invoice";
              Query.mode := Query.keyword; Query.page_range := Some (1, 1)%Z;
              Query.block_types := Some [paragraph]; Query.max_results := 1 |} in
  exists response,
    Query.query_engine MiniRe.lib Sample.store q = Query.Ok response /\
    map Query.block_id (Query.results response) = ["p1_b0"].
Proof.
  intros q.
  destruct (filters_apply_before_truncation
              Query.keyword_search (Query.regex_search MiniRe.lib) Query.apply_filters
              Query.keeps Sample.store q Sample.document
              (Query.keyword_search Sample.document "invoice"))
    as (response & Hrun & Hresults & _).
  - intros rs q'. reflexivity.
  - vm_compute. reflexivity.
  - reflexivity.
  - exists response. split; [exact Hrun|].
    rewrite Hresults. vm_compute. reflexivity.
Defined.

(** The other order would lose results: the best match of the sample is on
    page 2, so cutting to one result before filtering for page 1 leaves
    nothing, while the endpoint returns the match on page 1. *)
Example truncating_first_differs :
  let q := {| Query.document_id := "doc-1"; Query.query := "invoice";
              Query.mode := Query.keyword; Query.page_range := Some (1, 1)%Z;
              Query.block_types := None; Query.max_results := 1 |} in
  Query.apply_filters
    (Query.slice_to (Query.keyword_search Sample.document "invoice") 1) q = [] /\
  exists response,
    Query.query_engine MiniRe.lib Sample.store q = Query.Ok response /\
    length (Query.results response) = 1.
Proof. vm_compute. split; [reflexivity|]. eexists. split; reflexivity. Qed.




(** C3. A regex query whose pattern does not compile never gets a response,
    neither an empty one nor one that lists every block; against a stored
    document it fails with [InvalidQueryError]. *)
Theorem invalid_pattern_raises
    (re : Query.RegexLib) (store : gmap string Document.t) (q : Query.PerceptionQuery) :
  Query.mode q = Query.regex ->
  Query.compile re (Query.query q) = None ->
  (forall response, Query.query_engine re store q <> Query.Ok response) /\
  (forall doc,
      DocumentStore.get (Query.document_id q) store = Some doc ->
      Query.query_engine re store q = Query.Raise (Query.InvalidQueryError (Query.query q))).
Proof.
  intros Hmode Hbad.
  assert (Hsearch : forall doc,
             Query.execute_query Query.keyword_search (Query.regex_search re) doc q =
             Query.Raise (Query.InvalidQueryError (Query.query q))).
  { intros doc. unfold Query.execute_query, Query.regex_search.
    now rewrite Hmode, Hbad. }
  unfold Query.query_engine, Query.query_document. split.
  - intros response.
    destruct (DocumentStore.get (Query.document_id q) store) as [doc|]; [|discriminate].
    rewrite Hsearch. discriminate.
  - intros doc ->. now rewrite Hsearch.
Qed.

Lemma invalid_pattern_raises_witness :
  Query.compile MiniRe.lib "(" = None /\
  Query.query_engine MiniRe.lib Sample.store (Sample.ask Query.regex "(" 10) =
    Query.Raise (Query.InvalidQueryError "(").
Proof.
  assert (Hbad : Query.compile MiniRe.lib "(" = None) by (vm_compute; reflexivity).
  split; [exact Hbad|].
  destruct (invalid_pattern_raises MiniRe.lib Sample.store
              (Sample.ask Query.regex "(" 10) eq_refl Hbad) as [_ Hraise].
  apply (Hraise Sample.document). vm_compute. reflexivity.
Defined.

Example regex_query_matches :
  exists response,
    Query.query_engine MiniRe.lib Sample.store
      (Sample.ask Query.regex "Date: 2026-01-(0|1|2|3|4|5|6|7|8|9)*" 10) = Query.Ok response /\
    map Query.matched_text (Query.results response) = ["Date: 2026-01-28"].
Proof. vm_compute. eexists. split; reflexivity. Qed.

Example keyword_query_invoice :
  exists response,
    Query.query_engine MiniRe.lib
      (DocumentStore.save Sample.scanned DocumentStore.init)
      {| Query.document_id := "doc-2"; Query.query := "Invoice"; Query.mode := Query.keyword;
         Query.page_range := None; Query.block_types := None; Query.max_results := 10 |}
      = Query.Ok response /\
    map (fun r => (Query.matched_text r, negb (Qle_bool (Query.score r) 0)))
        (Query.results response) = [("Invoice #1234", true)].
Proof. vm_compute. eexists. split; reflexivity. Qed.

(** ** More on the webview renderer *)

Section EscapeHtmlMore.
Import Renderer.

Lemma escapeEach_app s1 s2 : escapeEach (s1 ++ s2) = escapeEach s1 ++ escapeEach s2.
Proof.
  induction s1 as [|a s1 IH]; simpl; [reflexivity|].
  now rewrite IH, string_app_assoc.
Qed.

Lemma string_length_app (s1 s2 : string) :
  String.length (s1 ++ s2) = String.length s1 + String.length s2.
Proof. induction s1 as [|a s1 IH]; simpl; [reflexivity|]. now rewrite IH. Qed.

Lemma entity_plain a : special a = false -> entity a = String a EmptyString.
Proof.
  unfold special, entity. intros H.
  repeat (apply orb_false_iff in H as [H ?]).
  now repeat match goal with E : Ascii.eqb _ _ = false |- _ => rewrite E; clear E end.
Qed.

Lemma entity_special a :
  special a = true -> exists tail, entity a = String amp tail /\ tail <> EmptyString.
Proof.
  unfold special, entity. intros H.
  destruct (Ascii.eqb a amp); [eexists; split; [reflexivity|discriminate]|].
  destruct (Ascii.eqb a lt_sign); [eexists; split; [reflexivity|discriminate]|].
  destruct (Ascii.eqb a gt_sign); [eexists; split; [reflexivity|discriminate]|].
  destruct (Ascii.eqb a dquote); [eexists; split; [reflexivity|discriminate]|].
  destruct (Ascii.eqb a squote); [eexists; split; [reflexivity|discriminate]|].
  discriminate.
Qed.

Lemma special_cases a :
  special a = true ->
  a = amp \/ a = lt_sign \/ a = gt_sign \/ a = dquote \/ a = squote.
Proof.
  unfold special. intros H.
  repeat (apply orb_true_iff in H as [H|H]);
    apply Ascii.eqb_eq in H; tauto.
Qed.

(** Reading the entity back: what follows the first character decides which
    of the five it was. *)
Lemma entity_app_inj a b s t :
  entity a ++ escapeEach s = entity b ++ escapeEach t ->
  a = b /\ escapeEach s = escapeEach t.
Proof.
  destruct (special a) eqn:Ha, (special b) eqn:Hb.
  - apply special_cases in Ha, Hb.
    destruct Ha as [->|[->|[->|[->| ->]]]], Hb as [->|[->|[->|[->| ->]]]];
      intros H; first [discriminate H | split; [reflexivity|]];
      exact (inj (String.append _) _ _ H).
  - destruct (entity_special a Ha) as (tail & -> & _).
    rewrite (entity_plain b Hb). simpl. intros [= <- _].
    unfold special in Hb. now rewrite Ascii.eqb_refl in Hb.
  - destruct (entity_special b Hb) as (tail & -> & _).
    rewrite (entity_plain a Ha). simpl. intros [= -> _].
    unfold special in Ha. now rewrite Ascii.eqb_refl in Ha.
  - rewrite (entity_plain a Ha), (entity_plain b Hb). simpl.
    intros [= -> ->]. now split.
Qed.

Lemma entity_nonempty a s : entity a ++ s <> EmptyString.
Proof.
  destruct (special a) eqn:Ha.
  - destruct (entity_special a Ha) as (tail & -> & _). discriminate.
  - rewrite (entity_plain a Ha). discriminate.
Qed.

Lemma escapeEach_inj s t : escapeEach s = escapeEach t -> s = t.
Proof.
  revert t. induction s as [|a s IH]; intros [|b t]; simpl; intros H.
  - reflexivity.
  - symmetry in H. now apply entity_nonempty in H.
  - now apply entity_nonempty in H.
  - apply entity_app_inj in H as [-> H]. f_equal. now apply IH.
Qed.

Lemma entity_length a :
  String.length (entity a) =
  1 + 4 * (if Ascii.eqb a amp then 1 else 0) + 3 * (if Ascii.eqb a lt_sign then 1 else 0)
    + 3 * (if Ascii.eqb a gt_sign then 1 else 0) + 5 * (if Ascii.eqb a dquote then 1 else 0)
    + 4 * (if Ascii.eqb a squote then 1 else 0).
Proof.
  unfold entity.
  destruct (Ascii.eqb_spec a amp) as [->|_]; [reflexivity|].
  destruct (Ascii.eqb_spec a lt_sign) as [->|_]; [reflexivity|].
  destruct (Ascii.eqb_spec a gt_sign) as [->|_]; [reflexivity|].
  destruct (Ascii.eqb_spec a dquote) as [->|_]; [reflexivity|].
  destruct (Ascii.eqb_spec a squote) as [->|_]; reflexivity.
Qed.

Lemma escapeEach_length s :
  String.length (escapeEach s) =
  String.length s + 4 * count_char amp s + 3 * count_char lt_sign s
    + 3 * count_char gt_sign s + 5 * count_char dquote s + 4 * count_char squote s.
Proof.
  induction s as [|a s IH]; simpl; [reflexivity|].
  rewrite string_length_app, entity_length, IH. lia.
Qed.

Lemma escapeEach_plain s :
  count_char amp s = 0 -> count_char lt_sign s = 0 -> count_char gt_sign s = 0 ->
  count_char dquote s = 0 -> count_char squote s = 0 -> escapeEach s = s.
Proof.
  induction s as [|a s IH]; simpl; [reflexivity|].
  intros H1 H2 H3 H4 H5.
  rewrite entity_plain.
  - simpl. f_equal. apply IH; lia.
  - unfold special.
    destruct (Ascii.eqb a amp); [discriminate|].
    destruct (Ascii.eqb a lt_sign); [discriminate|].
    destruct (Ascii.eqb a gt_sign); [discriminate|].
    destruct (Ascii.eqb a dquote); [discriminate|].
    destruct (Ascii.eqb a squote); [discriminate|reflexivity].
Qed.

End EscapeHtmlMore.

(** [escapeHtml] loses nothing: two different texts never escape to the same
    string. *)
Theorem escapeHtml_injective (s t : string) :
  Renderer.escapeHtml s = Renderer.escapeHtml t -> s = t.
Proof. rewrite !escapeHtml_escapeEach. apply escapeEach_inj. Qed.

Lemma escapeHtml_injective_witness :
  Renderer.escapeHtml "a<b" = Renderer.escapeHtml ("a" ++ "<b") /\ "a<b" = "a" ++ "<b".
Proof.
  assert (H : Renderer.escapeHtml "a<b" = Renderer.escapeHtml ("a" ++ "<b")) by reflexivity.
  split; [exact H|]. exact (escapeHtml_injective "a<b" ("a" ++ "<b") H).
Defined.

(** The escaped text is longer than the text by 4 for each ampersand, 3 for
    each < and each >, 5 for each double quote and 4 for each single quote;
    so [escapeHtml] returns a text unchanged exactly when it holds none of
    the five characters. *)
Theorem escapeHtml_length_and_fixed_points (s : string) :
  String.length (Renderer.escapeHtml s) =
    String.length s + 4 * count_char amp s + 3 * count_char lt_sign s
      + 3 * count_char gt_sign s + 5 * count_char dquote s + 4 * count_char squote s /\
  (Renderer.escapeHtml s = s <->
   count_char amp s + count_char lt_sign s + count_char gt_sign s
     + count_char dquote s + count_char squote s = 0).
Proof.
  rewrite escapeHtml_escapeEach. split; [apply escapeEach_length|]. split.
  - intros H. apply (f_equal String.length) in H.
    rewrite escapeEach_length in H. lia.
  - intros H. apply escapeEach_plain; lia.
Qed.

(** Escaping piece by piece is escaping the whole: [escapeHtml] distributes
    over concatenation. *)
Theorem escapeHtml_app (s t : string) :
  Renderer.escapeHtml (s ++ t) = Renderer.escapeHtml s ++ Renderer.escapeHtml t.
Proof. rewrite !escapeHtml_escapeEach. apply escapeEach_app. Qed.

Section WebviewMarkup.
Import Webview.

Lemma count_join_ext {A : Type} c (f g : A -> string) (l : list A) :
  (forall x, count_char c (f x) = count_char c (g x)) ->
  count_char c (join (map f l)) = count_char c (join (map g l)).
Proof.
  intros Hfg. induction l as [|x l IH]; simpl; [reflexivity|].
  now rewrite !count_app, Hfg, IH.
Qed.

Lemma count_join_imap_ext {A : Type} c (f g : nat -> A -> string) (l : list A) :
  (forall i x, count_char c (f i x) = count_char c (g i x)) ->
  count_char c (join (imap f l)) = count_char c (join (imap g l)).
Proof.
  revert f g. induction l as [|x l IH]; intros f g Hfg; simpl; [reflexivity|].
  rewrite !count_app, Hfg. f_equal. apply IH. intros i y. apply Hfg.
Qed.

Lemma renderCell_blank c i cell :
  In c Renderer.markup ->
  count_char c (renderCell i cell) = count_char c (renderCell i EmptyString).
Proof.
  intros Hc. unfold renderCell.
  destruct (i =? 0)%nat; rewrite !count_app, !escapeHtml_no_markup by assumption;
    reflexivity.
Qed.

Lemma renderRow_blank c i row :
  In c Renderer.markup ->
  count_char c (renderRow i row) =
  count_char c (renderRow i (map (fun _ => EmptyString) row)).
Proof.
  intros Hc. unfold renderRow. rewrite !count_app. f_equal. f_equal.
  rewrite map_map. apply count_join_ext. intros cell. now apply renderCell_blank.
Qed.

Lemma renderTable_blank c t :
  In c Renderer.markup ->
  count_char c (renderTable t) = count_char c (renderTable (blankTable t)).
Proof.
  intros Hc. unfold renderTable, blankTable. simpl cells.
  rewrite !count_app. do 4 f_equal.
  rewrite imap_fmap. apply count_join_imap_ext. intros i row.
  now apply renderRow_blank.
Qed.

Lemma renderTables_blank c tables :
  In c Renderer.markup ->
  count_char c (renderTables tables) = count_char c (renderTables (map blankTable tables)).
Proof.
  intros Hc. unfold renderTables. rewrite map_map.
  apply count_join_ext. intros t. now apply renderTable_blank.
Qed.

Context (Confidence : Type) (percent : Confidence -> string).
Context (Number : Type) (numberText : Number -> string).

Lemma renderBlocks_blank c (blocks : list (Renderer.Block Confidence)) :
  In c Renderer.markup ->
  count_char c (Renderer.renderBlocks Confidence percent blocks) =
  count_char c (Renderer.renderBlocks Confidence percent (map (blankBlock Confidence) blocks)).
Proof.
  intros Hc. unfold Renderer.renderBlocks. rewrite map_map.
  apply (count_join_ext c). intros b. unfold Renderer.renderBlock, blankBlock.
  cbn [Renderer.type Renderer.text Renderer.confidence].
  change (Renderer.escapeHtml EmptyString) with EmptyString.
  rewrite count_blockTemplate, escapeHtml_no_markup by assumption. lia.
Qed.

Lemma renderPages_blank c (pages : list (Page Confidence Number)) :
  In c Renderer.markup ->
  count_char c (renderPages Confidence percent Number numberText pages) =
  count_char c (renderPages Confidence percent Number numberText
                  (map (blankPage Confidence Number) pages)).
Proof.
  intros Hc. unfold renderPages. rewrite map_map.
  apply count_join_ext. intros page. unfold renderPage, blankPage.
  cbn [page_number blocks tables].
  rewrite !count_app.
  rewrite (renderBlocks_blank c (blocks Confidence Number page)) by assumption.
  rewrite (renderTables_blank c (tables Confidence Number page)) by assumption.
  reflexivity.
Qed.

End WebviewMarkup.

(** The markup of the rendered tables depends on the shape of the tables
    only: every cell goes through [escapeHtml], so emptying all cells leaves
    the number of each markup character in the output unchanged. *)
Theorem renderTables_cells_add_no_markup (tables : list Webview.Table) :
  Forall (fun c =>
            count_char c (Webview.renderTables tables) =
            count_char c (Webview.renderTables (map Webview.blankTable tables)))
         Renderer.markup.
Proof.
  apply Forall_forall. intros c Hc.
  apply renderTables_blank. now apply list_elem_of_In.
Qed.

Section PageAccount.
Import Webview PageMarkup.

(** Counting the markup characters of a literal text. *)
Ltac count_literals :=
  repeat match goal with
         | |- context [count_char ?c ?s] =>
             let v := eval vm_compute in (count_char c s) in
             change (count_char c s) with v
         end.

Lemma markup_cases c :
  In c Renderer.markup -> c = lt_sign \/ c = gt_sign \/ c = dquote \/ c = squote.
Proof. simpl. intuition. Qed.

Lemma count_join {A : Type} c (f : A -> string) (g : A -> nat) (l : list A) :
  (forall x, count_char c (f x) = g x) ->
  count_char c (join (map f l)) = list_sum (map g l).
Proof.
  intros Hfg. induction l as [|x l IH]; simpl; [reflexivity|].
  now rewrite count_app, Hfg, IH.
Qed.

Lemma count_join_imap {A : Type} c (f : nat -> A -> string) (g : A -> nat) (l : list A) :
  (forall i x, count_char c (f i x) = g x) ->
  count_char c (join (imap f l)) = list_sum (map g l).
Proof.
  revert f. induction l as [|x l IH]; intros f Hfg; simpl; [reflexivity|].
  rewrite count_app, Hfg. f_equal. apply IH. intros i y. apply Hfg.
Qed.

Lemma count_renderCell c i cell :
  In c Renderer.markup -> count_char c (renderCell i cell) = ofCell c.
Proof.
  intros Hc. unfold renderCell.
  destruct (i =? 0)%nat; rewrite !count_app, escapeHtml_no_markup by assumption;
    apply markup_cases in Hc as [->|[->|[->| ->]]]; reflexivity.
Qed.

Lemma count_renderRow c i row :
  In c Renderer.markup ->
  count_char c (renderRow i row) = ofRow c + length row * ofCell c.
Proof.
  intros Hc. unfold renderRow. rewrite !count_app.
  rewrite (count_join c (renderCell i) (fun _ => ofCell c))
    by (intros cell; now apply count_renderCell).
  assert (Hsum : forall l : list string,
             list_sum (map (fun _ => ofCell c) l) = length l * ofCell c).
  { induction l as [|x l IH]; simpl; [reflexivity|]. now rewrite IH. }
  rewrite Hsum. generalize (length row * ofCell c). intros k.
  apply markup_cases in Hc as [->|[->|[->| ->]]]; count_literals;
    vm_compute (ofRow _); lia.
Qed.

Lemma count_renderTable c t :
  In c Renderer.markup -> count_char c (renderTable t) = inTable c t.
Proof.
  intros Hc. unfold renderTable, inTable. rewrite !count_app.
  rewrite (count_join_imap c renderRow (fun row => ofRow c + length row * ofCell c))
    by (intros i row; now apply count_renderRow).
  generalize (list_sum (map (fun row => ofRow c + length row * ofCell c) (cells t))).
  intros k.
  apply markup_cases in Hc as [->|[->|[->| ->]]]; count_literals;
    vm_compute (ofTable _); lia.
Qed.

Context (Confidence : Type) (percent : Confidence -> string).
Context (Number : Type) (numberText : Number -> string).

Lemma count_renderBlock c (b : Renderer.Block Confidence) :
  In c Renderer.markup ->
  count_char c (Renderer.renderBlock Confidence percent b) = inBlock Confidence percent c b.
Proof.
  intros Hc. unfold Renderer.renderBlock, inBlock.
  rewrite count_blockTemplate, escapeHtml_no_markup by assumption.
  destruct (count_blockTemplate_blank (Renderer.type Confidence b)
              (percent (Renderer.confidence Confidence b))) as (Hlt & Hgt & Hdq & Hsq).
  apply markup_cases in Hc as [->|[->|[->| ->]]];
    vm_compute (ofBlock _); lia.
Qed.

Lemma count_renderPage c (page : Page Confidence Number) :
  In c Renderer.markup ->
  count_char c (renderPage Confidence percent Number numberText page) =
  inPage Confidence percent Number numberText c page.
Proof.
  intros Hc. unfold renderPage, inPage, renderTables, Renderer.renderBlocks.
  rewrite !count_app.
  change (fold_right String.append EmptyString) with join.
  rewrite (count_join c _ (inBlock Confidence percent c))
    by (intros b; now apply count_renderBlock).
  rewrite (count_join c renderTable (inTable c))
    by (intros t; now apply count_renderTable).
  generalize (list_sum (map (inBlock Confidence percent c) (blocks Confidence Number page))),
    (list_sum (map (inTable c) (tables Confidence Number page))),
    (count_char c (numberText (page_number Confidence Number page))).
  intros k1 k2 k3.
  apply markup_cases in Hc as [->|[->|[->| ->]]]; count_literals;
    vm_compute (ofPage _); lia.
Qed.

Lemma count_createWebviewContent c (result : Result Confidence Number) cspSource styleUri :
  In c Renderer.markup ->
  count_char c (createWebviewContent Confidence percent Number numberText
                  result cspSource styleUri) =
  inResult Confidence percent Number numberText c result cspSource styleUri.
Proof.
  intros Hc. unfold createWebviewContent, inResult, renderPages.
  rewrite !count_app.
  rewrite (count_join c _ (inPage Confidence percent Number numberText c))
    by (intros page; now apply count_renderPage).
  generalize (list_sum (map (inPage Confidence percent Number numberText c)
                          (pages Confidence Number result))),
    (count_char c cspSource), (count_char c styleUri),
    (count_char c (shownId Confidence Number result)).
  intros k1 k2 k3 k4.
  apply markup_cases in Hc as [->|[->|[->| ->]]]; count_literals;
    vm_compute (ofFrame _); lia.
Qed.

End PageAccount.

(** The markup characters of the page of [createWebviewContent], counted:
    they are those written in the templates (21 <, 21 >, 16 double and 10
    single quotes around the pages, and fixed numbers per page, block, table,
    row and cell), those of the two strings the editor supplies, and those of
    three values that are spliced in as they are: the document id, the
    printed page numbers and the printed confidences.  The texts of the
    blocks and of the table cells add none, so emptying them all leaves the
    counts unchanged. *)
Theorem createWebviewContent_texts_add_no_markup
    (Confidence : Type) (percent : Confidence -> string)
    (Number : Type) (numberText : Number -> string)
    (result : Webview.Result Confidence Number) (cspSource styleUri : string) :
  Forall (fun c =>
            count_char c (Webview.createWebviewContent Confidence percent Number numberText
                            result cspSource styleUri) =
            PageMarkup.inResult Confidence percent Number numberText c
              result cspSource styleUri)
         Renderer.markup /\
  Forall (fun c =>
            count_char c (Webview.createWebviewContent Confidence percent Number numberText
                            result cspSource styleUri) =
            count_char c (Webview.createWebviewContent Confidence percent Number numberText
                            (Webview.blankResult Confidence Number result)
                            cspSource styleUri))
         Renderer.markup.
Proof.
  split.
  - apply Forall_forall. intros c Hc. apply list_elem_of_In in Hc.
    now apply count_createWebviewContent.
  - apply Forall_forall. intros c Hc. apply list_elem_of_In in Hc.
    unfold Webview.createWebviewContent, Webview.blankResult, Webview.shownId.
    cbn [Webview.document_id Webview.pages].
    rewrite !count_app.
    rewrite (renderPages_blank Confidence percent Number numberText c
               (Webview.pages Confidence Number result)) by assumption.
    reflexivity.
Qed.

(** A document id that holds markup reaches the page as markup. *)
Example createWebviewContent_raw_document_id :
  let page id := Webview.createWebviewContent unit (fun _ => "95.0") nat Controller.str
                   (Webview.mkResult unit nat (Some id) []) "csp" "style.css" in
  count_char lt_sign (page "doc-1") = 21 /\
  count_char lt_sign (page "<script>alert(1)</script>") = 23.
Proof. vm_compute. split; reflexivity. Qed.

(** ** Sequences of provider calls *)

Section ProviderSequences.
Import AletheiaDocumentProvider ProviderOps.

Lemma run_snoc ops op p : run (ops ++ [op]) p = step (run ops p) op.
Proof. unfold run. now rewrite fold_left_app. Qed.

Lemma provide_setContent_same u c p :
  provideTextDocumentContent u (setContent u c p) = c.
Proof.
  unfold provideTextDocumentContent, setContent. simpl.
  rewrite lookup_insert_eq. destruct (String.eqb_spec c EmptyString); congruence.
Qed.

Lemma provide_setContent_other u u' c p :
  u' <> u -> provideTextDocumentContent u (setContent u' c p) = provideTextDocumentContent u p.
Proof.
  intros Hne. unfold provideTextDocumentContent, setContent. simpl.
  now rewrite lookup_insert_ne.
Qed.

Lemma provide_removeDocument_same u p :
  provideTextDocumentContent u (removeDocument u p) = EmptyString.
Proof.
  unfold provideTextDocumentContent, removeDocument. simpl.
  now rewrite lookup_delete_eq.
Qed.

Lemma provide_removeDocument_other u u' p :
  u' <> u ->
  provideTextDocumentContent u (removeDocument u' p) = provideTextDocumentContent u p.
Proof.
  intros Hne. unfold provideTextDocumentContent, removeDocument. simpl.
  now rewrite lookup_delete_ne.
Qed.

End ProviderSequences.

(** After any sequence of calls the provider has called [_onDidChange.fire]
    once per [setContent], with the URI of that call and in the order of the
    calls; [removeDocument], [clear] and [dispose] never call it. *)
Theorem provider_fires_once_per_setContent
    (ops : list ProviderOps.Op) (p : AletheiaDocumentProvider.t) :
  AletheiaDocumentProvider.fired (ProviderOps.run ops p) =
  (AletheiaDocumentProvider.fired p ++ ProviderOps.announced ops)%list.
Proof.
  revert p. induction ops as [|op ops IH]; intros p; simpl.
  - now rewrite app_nil_r.
  - unfold ProviderOps.run in *. simpl. rewrite IH.
    destruct op; simpl; [now rewrite <- app_assoc|reflexivity..].
Qed.

(** After any sequence of calls, the content provided for a URI is decided
    by the most recent call that touches it: the text of that [setContent],
    or the empty string if it was a [removeDocument] of the URI, a [clear] or
    a [dispose]; with no such call the content is what it was before. *)
Theorem provider_content_is_latest_call
    (ops : list ProviderOps.Op) (p : AletheiaDocumentProvider.t) (u : string) :
  AletheiaDocumentProvider.provideTextDocumentContent u (ProviderOps.run ops p) =
  match ProviderOps.latest u (rev ops) with
  | Some content => content
  | None => AletheiaDocumentProvider.provideTextDocumentContent u p
  end.
Proof.
  induction ops as [|op ops IH] using rev_ind; [reflexivity|].
  rewrite run_snoc, rev_app_distr. simpl rev. simpl app.
  destruct op as [u' c|u'| |]; simpl.
  - destruct (String.eqb_spec u' u) as [->|Hne].
    + apply provide_setContent_same.
    + now rewrite provide_setContent_other.
  - destruct (String.eqb_spec u' u) as [->|Hne].
    + apply provide_removeDocument_same.
    + now rewrite provide_removeDocument_other.
  - reflexivity.
  - reflexivity.
Qed.

Example provider_sequence :
  let p := ProviderOps.run
             [ProviderOps.SetContent "a" "1"; ProviderOps.SetContent "b" "2";
              ProviderOps.RemoveDocument "a"; ProviderOps.SetContent "b" "3"]
             AletheiaDocumentProvider.create in
  AletheiaDocumentProvider.fired p = ["a"; "b"; "b"] /\
  AletheiaDocumentProvider.provideTextDocumentContent "a" p = "" /\
  AletheiaDocumentProvider.provideTextDocumentContent "b" p = "3".
Proof. vm_compute. repeat split. Qed.

(** ** Temporary documents in insertion order *)

Section Tracked.
Import TrackedDocuments.

Lemma map_get_set_same key value (m : t) : map_get key (map_set key value m) = Some value.
Proof.
  induction m as [|[k v] rest IH]; simpl.
  - now rewrite String.eqb_refl.
  - destruct (String.eqb_spec k key) as [->|Hne]; simpl.
    + now rewrite String.eqb_refl.
    + apply String.eqb_neq in Hne. now rewrite Hne.
Qed.

Lemma map_get_set_other key key' value (m : t) :
  key' <> key -> map_get key' (map_set key value m) = map_get key' m.
Proof.
  intros Hne. induction m as [|[k v] rest IH]; simpl.
  - apply not_eq_sym, String.eqb_neq in Hne. now rewrite Hne.
  - destruct (String.eqb_spec k key) as [->|Hk]; simpl.
    + apply not_eq_sym, String.eqb_neq in Hne. now rewrite Hne.
    + now rewrite IH.
Qed.

Lemma map_get_delete_same key (m : t) : map_get key (map_delete key m) = None.
Proof.
  induction m as [|[k v] rest IH]; simpl; [reflexivity|].
  destruct (String.eqb k key) eqn:Hk; simpl; [exact IH|].
  now rewrite Hk.
Qed.

Lemma map_get_delete_other key key' (m : t) :
  key' <> key -> map_get key' (map_delete key m) = map_get key' m.
Proof.
  intros Hne. induction m as [|[k v] rest IH]; simpl; [reflexivity|].
  destruct (String.eqb_spec k key) as [->|Hk]; simpl.
  - apply not_eq_sym, String.eqb_neq in Hne. now rewrite Hne.
  - now rewrite IH.
Qed.

Lemma ids_map_set key value (m : t) :
  getTempDocumentIds (map_set key value m) =
  if bool_decide (key ∈ getTempDocumentIds m) then getTempDocumentIds m
  else (getTempDocumentIds m ++ [key])%list.
Proof.
  unfold getTempDocumentIds.
  induction m as [|[k v] rest IH]; simpl; [reflexivity|].
  destruct (String.eqb_spec k key) as [->|Hk]; simpl.
  - rewrite bool_decide_eq_true_2 by apply list_elem_of_here. reflexivity.
  - rewrite IH. destruct (bool_decide (key ∈ map fst rest)) eqn:Hin.
    + apply bool_decide_eq_true_1 in Hin.
      rewrite bool_decide_eq_true_2 by now apply list_elem_of_further. reflexivity.
    + apply bool_decide_eq_false_1 in Hin.
      rewrite bool_decide_eq_false_2; [reflexivity|].
      intros [Heq|Hin']%elem_of_cons; congruence.
Qed.

Lemma ids_map_delete key (m : t) :
  getTempDocumentIds (map_delete key m) =
  List.filter (fun k => negb (String.eqb k key)) (getTempDocumentIds m).
Proof.
  unfold getTempDocumentIds, map_delete.
  induction m as [|[k v] rest IH]; simpl; [reflexivity|].
  destruct (String.eqb k key); simpl; now rewrite IH.
Qed.

Lemma ids_get (m : t) id :
  id ∈ getTempDocumentIds m <-> is_Some (getTempDocument id m).
Proof.
  unfold getTempDocumentIds, getTempDocument.
  induction m as [|[k v] rest IH]; simpl.
  - split; [intros H; inversion H|intros [x H]; discriminate].
  - destruct (String.eqb_spec k id) as [->|Hk].
    + split; [eauto|intros _; apply list_elem_of_here].
    + rewrite elem_of_cons, IH. split; [intros [?|?]; congruence|tauto].
Qed.

Lemma NoDup_filter_keep {A : Type} (f : A -> bool) (l : list A) :
  NoDup l -> NoDup (List.filter f l).
Proof.
  induction 1 as [|x l Hx Hl IH]; simpl; [constructor|].
  destruct (f x); [|exact IH]. constructor; [|exact IH].
  intros Hin. apply Hx. apply list_elem_of_In, filter_In in Hin as [Hin _].
  now apply list_elem_of_In.
Qed.

Lemma ids_NoDup_step (m : t) op :
  NoDup (getTempDocumentIds m) -> NoDup (getTempDocumentIds (step m op)).
Proof.
  intros Hnd. destruct op as [id c u now|id|]; simpl.
  - unfold createTempDocument. rewrite ids_map_set.
    destruct (bool_decide (id ∈ getTempDocumentIds m)) eqn:Hin; [exact Hnd|].
    apply bool_decide_eq_false_1 in Hin.
    apply NoDup_app. split; [exact Hnd|]. split.
    + intros x Hx [->|Hnil]%elem_of_cons; [contradiction|inversion Hnil].
    + apply NoDup_singleton.
  - unfold removeTempDocument. rewrite ids_map_delete. now apply NoDup_filter_keep.
  - constructor.
Qed.

Lemma run_ids_NoDup ops : NoDup (getTempDocumentIds (run ops)).
Proof.
  unfold run. generalize (NoDup_nil_2 (A := string)).
  change (@nil string) with (getTempDocumentIds []).
  generalize (@nil (string * TempDocuments.TempDocument)).
  induction ops as [|op ops IH]; intros m Hm; simpl; [exact Hm|].
  apply IH. now apply ids_NoDup_step.
Qed.

(** The ordered model and the unordered one hold the same documents. *)
Lemma list_to_map_set key value (m : t) :
  (list_to_map (map_set key value m) : gmap string TempDocuments.TempDocument) =
  <[key := value]> (list_to_map m).
Proof.
  induction m as [|[k v] rest IH]; simpl; [reflexivity|].
  destruct (String.eqb_spec k key) as [->|Hk]; simpl.
  - now rewrite insert_insert_eq.
  - rewrite IH. now apply insert_insert_ne.
Qed.

Lemma list_to_map_delete key (m : t) :
  (list_to_map (map_delete key m) : gmap string TempDocuments.TempDocument) =
  delete key (list_to_map m).
Proof.
  unfold map_delete.
  induction m as [|[k v] rest IH]; simpl; [now rewrite delete_empty|].
  destruct (String.eqb_spec k key) as [->|Hk]; simpl.
  - now rewrite IH, delete_insert_eq.
  - rewrite IH. now rewrite delete_insert_ne.
Qed.

Lemma run_refines ops :
  (list_to_map (run ops) : gmap string TempDocuments.TempDocument) =
  fold_left step_unordered ops ∅.
Proof.
  unfold run.
  change (∅ : gmap string TempDocuments.TempDocument)
    with (list_to_map (@nil (string * TempDocuments.TempDocument))
            : gmap string TempDocuments.TempDocument).
  generalize (@nil (string * TempDocuments.TempDocument)).
  induction ops as [|op ops IH]; intros m; simpl; [reflexivity|].
  rewrite IH. f_equal. destruct op; simpl.
  - apply list_to_map_set.
  - apply list_to_map_delete.
  - reflexivity.
Qed.

End Tracked.

(** Creating a temporary document and looking it up gives back the record
    made of the arguments; removing it makes the lookup come back undefined;
    neither call changes what any other id is mapped to. *)
Theorem tracked_create_get_remove
    (m : TrackedDocuments.t) (id content docUri : string) (now : Z) :
  TrackedDocuments.getTempDocument id
    (TrackedDocuments.createTempDocument id content docUri now m) =
    Some {| TempDocuments.uri := docUri; TempDocuments.documentId := id;
            TempDocuments.createdAt := now; TempDocuments.content := content |} /\
  TrackedDocuments.getTempDocument id (TrackedDocuments.removeTempDocument id m) = None /\
  (forall id' : string, id' <> id ->
     TrackedDocuments.getTempDocument id'
       (TrackedDocuments.createTempDocument id content docUri now m) =
       TrackedDocuments.getTempDocument id' m /\
     TrackedDocuments.getTempDocument id' (TrackedDocuments.removeTempDocument id m) =
       TrackedDocuments.getTempDocument id' m).
Proof.
  split; [apply map_get_set_same|]. split; [apply map_get_delete_same|].
  intros id' Hne. split.
  - now apply map_get_set_other.
  - now apply map_get_delete_other.
Qed.

(** Whatever calls have been made, [getTempDocumentIds] lists every id at
    most once, and it lists exactly the ids for which [getTempDocument]
    finds a document. *)
Theorem tracked_ids_listed_once (ops : list TrackedDocuments.Op) :
  NoDup (TrackedDocuments.getTempDocumentIds (TrackedDocuments.run ops)) /\
  (forall id : string,
      id ∈ TrackedDocuments.getTempDocumentIds (TrackedDocuments.run ops) <->
      is_Some (TrackedDocuments.getTempDocument id (TrackedDocuments.run ops))).
Proof. split; [apply run_ids_NoDup|]. intros id. apply ids_get. Qed.

(** The order of [getTempDocumentIds]: creating a document under a new id
    puts the id at the end of the list, creating one under an id that is
    already tracked leaves the list as it is (the document is replaced in
    place), and removing an id takes it out and keeps the order of the
    rest. *)
Theorem tracked_ids_order
    (m : TrackedDocuments.t) (id content docUri : string) (now : Z) :
  TrackedDocuments.getTempDocumentIds
    (TrackedDocuments.createTempDocument id content docUri now m) =
    (if bool_decide (id ∈ TrackedDocuments.getTempDocumentIds m)
     then TrackedDocuments.getTempDocumentIds m
     else (TrackedDocuments.getTempDocumentIds m ++ [id])%list) /\
  TrackedDocuments.getTempDocumentIds (TrackedDocuments.removeTempDocument id m) =
    List.filter (fun k => negb (String.eqb k id)) (TrackedDocuments.getTempDocumentIds m).
Proof. split; [apply ids_map_set|apply ids_map_delete]. Qed.

Example tracked_ids_example :
  TrackedDocuments.getTempDocumentIds
    (TrackedDocuments.run
       [TrackedDocuments.Create "b" "one" "untitled:1" 10;
        TrackedDocuments.Create "a" "two" "untitled:2" 11;
        TrackedDocuments.Create "b" "three" "untitled:3" 12;
        TrackedDocuments.Create "c" "four" "untitled:4" 13;
        TrackedDocuments.Remove "a"]) = ["b"; "c"].
Proof. reflexivity. Qed.

(** ** The insert-block command *)

(** The command inserts at most one text, never an empty one and never
    without an active editor; without an editor it only warns and leaves the
    selection as it was; and the selection changes only by being cleared
    after it has been inserted. *)
Theorem insertBlockCommand_effects
    (activeEditor : bool) (answer : option string) (s : InsertBlock.State) :
  let (s', effects) := InsertBlock.insertBlockCommand activeEditor answer s in
  (length (InsertBlock.inserted effects) <= 1)%nat /\
  Forall (fun text => text <> EmptyString /\ activeEditor = true)
         (InsertBlock.inserted effects) /\
  (activeEditor = false ->
   s' = s /\ effects = [InsertBlock.ShowWarningMessage "No active editor"]) /\
  (s' = s \/
   (s' = InsertBlock.clearSelectedBlock s /\
    exists text, InsertBlock.selectedBlock s = Some text /\
                 InsertBlock.inserted effects = [text])).
Proof.
  unfold InsertBlock.insertBlockCommand.
  destruct activeEditor, s as [[sel|]], answer as [text|]; simpl;
    try destruct (String.eqb_spec sel EmptyString) as [->|Hsel]; simpl;
    try destruct (String.eqb_spec text EmptyString) as [->|Htext]; simpl;
    (split; [lia|]); (split; [repeat constructor; auto|]);
    (split; [intros; try discriminate; auto|]);
    first [ left; reflexivity
          | right; split; [reflexivity|]; eexists; split; reflexivity ].
Qed.

(** A selected block is used once: with an editor open, the command inserts
    the selected text and clears the selection, so the next run asks for
    text in the input box instead of inserting the block again. *)
Theorem insertBlockCommand_uses_selection_once
    (text : string) (answer answer' : option string) (s : InsertBlock.State) :
  text <> EmptyString ->
  let first := InsertBlock.insertBlockCommand true answer
                 (InsertBlock.setSelectedBlock text s) in
  let second := InsertBlock.insertBlockCommand true answer' (fst first) in
  snd first = [InsertBlock.Insert text;
               InsertBlock.ShowInformationMessage "Block inserted"] /\
  InsertBlock.getSelectedBlock (fst first) = None /\
  (exists rest, snd second = InsertBlock.ShowInputBox :: rest) /\
  (answer' = None -> InsertBlock.inserted (snd second) = []).
Proof.
  intros Htext. unfold InsertBlock.insertBlockCommand, InsertBlock.setSelectedBlock.
  simpl. apply String.eqb_neq in Htext. rewrite Htext. simpl.
  split; [reflexivity|]. split; [reflexivity|]. split.
  - destruct answer' as [t|]; simpl; [|eauto].
    destruct (String.eqb t EmptyString); simpl; eauto.
  - intros ->. reflexivity.
Qed.

Lemma insertBlockCommand_uses_selection_once_witness :
  snd (InsertBlock.insertBlockCommand true None
         (InsertBlock.setSelectedBlock "Invoice #1234" (InsertBlock.mkState None))) =
    [InsertBlock.Insert "Invoice #1234";
     InsertBlock.ShowInformationMessage "Block inserted"].
Proof.
  assert (Hne : "Invoice #1234" <> EmptyString) by discriminate.
  exact (proj1 (insertBlockCommand_uses_selection_once "Invoice #1234" None None
                  (InsertBlock.mkState None) Hne)).
Defined.

(** ** The sidecar process *)



(** The close handler clears the module variable whichever process closes:
    when the close event of a killed process arrives after the next one has
    been started, the module reports no sidecar although one it spawned is
    neither killed nor closed. *)
Example sidecar_late_close :
  let s := fold_left SidecarProcess.step
             [SidecarProcess.Start 8420 1; SidecarProcess.Stop;
              SidecarProcess.Start 8420 2; SidecarProcess.Close 1]
             SidecarProcess.init in
  SidecarProcess.isSidecarRunning s = false /\
  map fst (SidecarProcess.spawned s) = [1; 2] /\
  SidecarProcess.killed s = [1] /\ SidecarProcess.closed s = [1].
Proof. vm_compute. repeat split. Qed.

(** ** The tooltip *)

(** The tooltip shows nothing for a missing or empty text; a text of up to
    200 UTF-16 code units is shown whole; a longer one is cut to its first
    200 code units followed by three dots, so a tooltip never holds more
    than 203 code units. *)
Theorem tooltipText_bounds (text : option (list N)) :
  match Overlay.tooltipText text with
  | None => text = None \/ text = Some []
  | Some shown =>
      exists t, text = Some t /\ t <> [] /\
        (length shown <= 203)%nat /\
        ((length t <= 200)%nat -> shown = t) /\
        ((200 < length t)%nat ->
         shown = (take 200 t ++ [46%N; 46%N; 46%N])%list /\
         length shown = 203 /\
         t = (take 200 t ++ drop 200 t)%list)
  end.
Proof.
  unfold Overlay.tooltipText. destruct text as [[|u t]|]; [now right| |now left].
  set (w := u :: t). exists w. split; [reflexivity|]. split; [discriminate|].
  clearbody w. unfold Overlay.substring_to, Overlay.dots.
  assert (Hdots : length [46%N; 46%N; 46%N] = 3) by reflexivity.
  destruct (Nat.ltb_spec 200 (length w)) as [Hlong|Hshort].
  - split; [rewrite length_app, length_take; lia|].
    split; [lia|]. intros _. split; [reflexivity|].
    split; [rewrite length_app, length_take; lia|].
    now rewrite take_drop.
  - rewrite app_nil_r, take_ge by lia.
    split; [lia|]. split; [reflexivity|lia].
Qed.

Example tooltip_of_long_text :
  Overlay.tooltipText (Some (repeat 19990%N 150)) = Some (repeat 19990%N 150) /\
  Overlay.tooltipText (Some (repeat 65%N 201)) = Some (repeat 65%N 200 ++ Overlay.dots)%list.
Proof. vm_compute. split; reflexivity. Qed.

(** ** Splitting paths *)

Section Splitting.
Import Preview.
Variable sep : ascii -> bool.

Lemma splitOn_nonempty s : splitOn sep s <> [].
Proof.
  destruct s as [|a s]; simpl; [discriminate|].
  destruct (sep a); [discriminate|]. destruct (splitOn sep s); discriminate.
Qed.

Lemma splitOn_free s : free_of sep s = true -> splitOn sep s = [s].
Proof.
  induction s as [|a s IH]; simpl; [reflexivity|].
  destruct (sep a); [discriminate|]. simpl. intros H. now rewrite IH.
Qed.

Lemma splitOn_app_sep s1 c s2 :
  sep c = true ->
  splitOn sep (s1 ++ String c s2) = (splitOn sep s1 ++ splitOn sep s2)%list.
Proof.
  intros Hc. induction s1 as [|a s1 IH]; simpl.
  - now rewrite Hc.
  - destruct (sep a); [now rewrite IH|].
    rewrite IH. pose proof (splitOn_nonempty s1) as Hne.
    destruct (splitOn sep s1); [contradiction|reflexivity].
Qed.

(** A string either holds no separator, or falls into what comes before its
    last separator and a rest that holds none. *)
Lemma last_separator s :
  free_of sep s = true \/
  exists base c rest,
    sep c = true /\ free_of sep rest = true /\ s = base ++ String c rest.
Proof.
  induction s as [|a s [Hfree|(base & c & rest & Hc & Hrest & ->)]]; simpl.
  - now left.
  - destruct (sep a) eqn:Ha; [|now left].
    right. exists EmptyString, a, s. auto.
  - right. exists (String a base), c, rest. auto.
Qed.

Lemma last_splitOn_free s : free_of sep s = true -> last (splitOn sep s) = Some s.
Proof. intros H. now rewrite splitOn_free. Qed.

Lemma last_splitOn_app base c rest :
  sep c = true -> free_of sep rest = true ->
  last (splitOn sep (base ++ String c rest)) = Some rest.
Proof.
  intros Hc Hrest.
  rewrite splitOn_app_sep, last_app_nonempty by (assumption || apply splitOn_nonempty).
  now apply last_splitOn_free.
Qed.

End Splitting.

Lemma split_splitOn c s :
  ParseFile.split c s = Preview.splitOn (fun a => Ascii.eqb a c) s.
Proof.
  induction s as [|a s IH]; simpl; [reflexivity|]. now rewrite IH.
Qed.

Lemma free_of_count c s :
  Preview.free_of (fun a => Ascii.eqb a c) s = true <-> count_char c s = 0.
Proof.
  induction s as [|a s IH]; simpl; [tauto|].
  destruct (Ascii.eqb a c); simpl; [split; discriminate|exact IH].
Qed.

(** The name in the title of the preview panel is what follows the last
    slash or backslash of the path, or the whole path if it has neither; it
    never holds a separator itself. *)
Theorem preview_fileName_is_last_component (fsPath : string) :
  exists name,
    Preview.fileName fsPath = Some name /\
    Preview.panelTitle fsPath = "Aletheia: " ++ name /\
    Preview.free_of Preview.isSeparator name = true /\
    (fsPath = name \/
     exists dir c, Preview.isSeparator c = true /\ fsPath = dir ++ String c name).
Proof.
  unfold Preview.panelTitle, Preview.fileName.
  destruct (last_separator Preview.isSeparator fsPath)
    as [Hfree|(base & c & rest & Hc & Hrest & ->)].
  - exists fsPath. rewrite last_splitOn_free by assumption. auto.
  - exists rest. rewrite last_splitOn_app by assumption.
    split; [reflexivity|]. split; [reflexivity|]. split; [assumption|].
    right. now exists base, c.
Qed.

Example preview_titles :
  Preview.panelTitle "/home/u/docs/invoice.pdf" = "Aletheia: invoice.pdf" /\
  Preview.panelTitle ("C:" ++ String Preview.backslash "scans/page 1.png") =
    "Aletheia: page 1.png" /\
  Preview.panelTitle "/home/u/docs/" = "Aletheia: ".
Proof. vm_compute. repeat split. Qed.

(** [isSupportedFile] accepts a path exactly when the path, lower-cased, is
    one of the names pdf, png, jpg, jpeg, tiff or ends in a dot followed by
    one of them. *)
Theorem isSupportedFile_iff (fsPath : string) :
  ParseFile.isSupportedFile fsPath = true <->
  exists ext, In ext ParseFile.supported /\
    (lowercase fsPath = ext \/ exists base, lowercase fsPath = base ++ String dot ext).
Proof.
  unfold ParseFile.isSupportedFile, ParseFile.pop, ParseFile.toLowerCase.
  assert (Hin : forall e, ParseFile.includes ParseFile.supported e = true <->
                          In e ParseFile.supported).
  { intros e. unfold ParseFile.includes. rewrite existsb_exists. split.
    - intros (x & Hx & Heq). apply String.eqb_eq in Heq. now subst.
    - intros He. exists e. split; [exact He|apply String.eqb_refl]. }
  assert (Hnodot : forall e, In e ParseFile.supported -> count_char dot e = 0).
  { intros e He. simpl in He. intuition (subst; reflexivity). }
  assert (Hpick : forall e, (if String.eqb e EmptyString then EmptyString else e) = e).
  { intros e. destruct (String.eqb_spec e EmptyString); congruence. }
  rewrite split_splitOn. split.
  - destruct (last_separator (fun a => Ascii.eqb a dot) (lowercase fsPath))
      as [Hfree|(base & c & rest & Hc & Hrest & Heq)].
    + rewrite last_splitOn_free by assumption. rewrite Hpick, Hin.
      intros He. exists (lowercase fsPath). auto.
    + rewrite Heq, last_splitOn_app by assumption. rewrite Hpick, Hin.
      intros He. exists rest. split; [exact He|]. right. exists base.
      apply Ascii.eqb_eq in Hc. now subst c.
  - intros (ext & He & [Heq|[base Heq]]); rewrite Heq.
    + rewrite last_splitOn_free by now apply free_of_count, Hnodot.
      now rewrite Hpick, Hin.
    + rewrite last_splitOn_app; [now rewrite Hpick, Hin|apply Ascii.eqb_refl|].
      now apply free_of_count, Hnodot.
Qed.

Example isSupportedFile_examples :
  map ParseFile.isSupportedFile
    ["/d/a.PDF"; "/d/a.tar.Png"; "/d/a.pdf.txt"; "/d/a."; "/d/pdf"; "pdf"; ".tiff"; ""] =
    [true; true; false; false; false; true; true; false].
Proof. reflexivity. Qed.

(** ** The document store *)

(** Saving a document and getting it by its id returns that document; a
    later save under the same id replaces it; and a save changes what is
    stored under no other id. *)
Theorem store_save_get (document : Document.t) (store : gmap string Document.t) :
  DocumentStore.get (Document.document_id document) (DocumentStore.save document store) =
    Some document /\
  (forall newer : Document.t,
      Document.document_id newer = Document.document_id document ->
      DocumentStore.save newer (DocumentStore.save document store) =
      DocumentStore.save newer store) /\
  (forall id : string,
      id <> Document.document_id document ->
      DocumentStore.get id (DocumentStore.save document store) = DocumentStore.get id store).
Proof.
  unfold DocumentStore.get, DocumentStore.save. split; [|split].
  - apply lookup_insert_eq.
  - intros newer ->. apply insert_insert_eq.
  - intros id Hne. now apply lookup_insert_ne.
Qed.

(** ** Block ids of a PDF *)

Section BlockIds.
Import Controller.

Lemma digits_no_underscore d : count_char underscore (NilEmpty.string_of_uint d) = 0.
Proof. induction d; simpl; auto. Qed.

Lemma str_no_underscore n : count_char underscore (str n) = 0.
Proof.
  unfold str, NilZero.string_of_uint.
  destruct (Nat.to_uint n); try apply digits_no_underscore. reflexivity.
Qed.

Lemma to_uint_not_nil n : Nat.to_uint n <> Decimal.Nil.
Proof.
  intros H. pose proof (DecimalNat.Unsigned.to_of (Nat.to_uint n)) as Hnorm.
  rewrite DecimalNat.Unsigned.of_to, H in Hnorm. discriminate.
Qed.

Lemma str_inj n m : str n = str m -> n = m.
Proof.
  unfold str. intros H.
  apply (f_equal NilZero.uint_of_string) in H.
  rewrite !NilZero.usu in H by apply to_uint_not_nil.
  injection H as H. apply (f_equal Nat.of_uint) in H.
  now rewrite !DecimalNat.Unsigned.of_to in H.
Qed.

(** Two texts that hold no underscore and are each followed by an
    underscore are equal when the whole strings are. *)
Lemma before_underscore_inj s1 s2 t1 t2 :
  count_char underscore s1 = 0 -> count_char underscore s2 = 0 ->
  s1 ++ String underscore t1 = s2 ++ String underscore t2 -> s1 = s2 /\ t1 = t2.
Proof.
  revert s2. induction s1 as [|a s1 IH]; intros [|b s2]; simpl.
  - intros _ _ [= ->]. now split.
  - destruct (Ascii.eqb_spec b underscore) as [->|Hb]; [discriminate|].
    intros _ _ [= <- _]. contradiction.
  - destruct (Ascii.eqb_spec a underscore) as [->|Ha]; [discriminate|].
    intros _ _ [= -> _]. contradiction.
  - destruct (Ascii.eqb a underscore); [discriminate|].
    destruct (Ascii.eqb b underscore); [discriminate|]. simpl.
    intros H1 H2 [= -> H]. destruct (IH _ H1 H2 H) as [-> ->]. now split.
Qed.

End BlockIds.

(** The id of a PDF block tells its page and its position: two blocks built
    by the PDF path have the same id only if they are at the same position
    of the same page, so no two blocks of a parsed PDF share an id. *)
Theorem pdf_block_ids_unique
    (page_num idx page_num' idx' : nat) (block block' : Controller.TextBlock) :
  Block.id (Controller.pdf_block page_num idx block) =
  Block.id (Controller.pdf_block page_num' idx' block') ->
  page_num = page_num' /\ idx = idx'.
Proof.
  unfold Controller.pdf_block. simpl. intros [= H].
  change ("_b" ++ Controller.str idx)
    with (String underscore ("b" ++ Controller.str idx)) in H.
  change ("_b" ++ Controller.str idx')
    with (String underscore ("b" ++ Controller.str idx')) in H.
  apply before_underscore_inj in H as [Hpage Hidx]; try apply str_no_underscore.
  apply str_inj in Hpage. simpl in Hidx. injection Hidx as Hidx.
  apply str_inj in Hidx. split; [lia|exact Hidx].
Qed.

Lemma pdf_block_ids_unique_witness :
  Block.id (Controller.pdf_block 0 2 (Sample.text_block 0 0 1 1 "a" 0)) =
  Block.id (Controller.pdf_block 0 2 (Sample.text_block 5 5 9 9 "b" 1)) /\
  0 = 0 /\ 2 = 2.
Proof.
  assert (H : Block.id (Controller.pdf_block 0 2 (Sample.text_block 0 0 1 1 "a" 0)) =
              Block.id (Controller.pdf_block 0 2 (Sample.text_block 5 5 9 9 "b" 1)))
    by reflexivity.
  split; [exact H|]. exact (pdf_block_ids_unique 0 2 0 2 _ _ H).
Defined.

(** ** More on the query endpoint *)

(** [query_document] fails in exactly two ways: with 404 Document not found
    when the store has no document for the id, whatever the mode and the
    query text; and, for a stored document in regex mode, with the very
    error the regex search raised, neither wrapped nor swallowed.  (The
    keyword search is taken as a function that returns its matches.) *)
Theorem query_document_raises_iff
    (keyword_search : Document.t -> string -> list Query.QueryResult)
    (regex_search : Document.t -> string -> Query.Result (list Query.QueryResult))
    (apply_filters : list Query.QueryResult -> Query.PerceptionQuery -> list Query.QueryResult)
    (store : gmap string Document.t) (q : Query.PerceptionQuery) (e : Query.Error) :
  Query.query_document keyword_search regex_search apply_filters store q = Query.Raise e <->
  (DocumentStore.get (Query.document_id q) store = None /\
   e = Query.HTTPException 404 "Document not found") \/
  (exists doc, DocumentStore.get (Query.document_id q) store = Some doc /\
               Query.mode q = Query.regex /\
               regex_search doc (Query.query q) = Query.Raise e).
Proof.
  unfold Query.query_document, Query.execute_query.
  destruct (DocumentStore.get (Query.document_id q) store) as [doc|].
  - destruct (Query.mode q); simpl.
    + split; [discriminate|]. intros [[? _]|(d & _ & ? & _)]; discriminate.
    + destruct (regex_search doc (Query.query q)) as [matches|err] eqn:Hrx; simpl.
      * split; [discriminate|].
        intros [[? _]|(d & [= <-] & _ & Hd)]; [discriminate|congruence].
      * split.
        -- intros [= <-]. right. exists doc. auto.
        -- intros [[? _]|(d & [= <-] & _ & Hd)]; [discriminate|congruence].
    + split; [discriminate|]. intros [[? _]|(d & _ & ? & _)]; discriminate.
  - split.
    + intros [= <-]. now left.
    + intros [[_ ->]|(d & ? & _)]; [reflexivity|discriminate].
Qed.

(** The cut [results[:max_results]] at its edges: with [max_results] at
    least the number of filtered matches the response holds them all; with
    0 it is empty; and with a negative value -k it is not empty but holds
    all filtered matches except the last k. *)
Theorem query_document_max_results_edges
    (keyword_search : Document.t -> string -> list Query.QueryResult)
    (regex_search : Document.t -> string -> Query.Result (list Query.QueryResult))
    (apply_filters : list Query.QueryResult -> Query.PerceptionQuery -> list Query.QueryResult)
    (store : gmap string Document.t) (q : Query.PerceptionQuery)
    (doc : Document.t) (matches : list Query.QueryResult) :
  DocumentStore.get (Query.document_id q) store = Some doc ->
  Query.execute_query keyword_search regex_search doc q = Query.Ok matches ->
  exists response,
    Query.query_document keyword_search regex_search apply_filters store q =
      Query.Ok response /\
    ((Z.of_nat (length (apply_filters matches q)) <= Query.max_results q)%Z ->
     Query.results response = apply_filters matches q) /\
    (Query.max_results q = 0%Z -> Query.results response = []) /\
    ((Query.max_results q < 0)%Z ->
     Query.results response =
       take (length (apply_filters matches q) - Z.to_nat (- Query.max_results q))
            (apply_filters matches q)).
Proof.
  intros Hdoc Hmatches. eexists. split.
  { unfold Query.query_document. rewrite Hdoc, Hmatches. simpl. reflexivity. }
  simpl. unfold Query.slice_to. split; [|split].
  - intros Hmax. destruct (Z.leb_spec 0 (Query.max_results q)) as [_|Hneg]; [|lia].
    apply firstn_all2. lia.
  - intros ->. reflexivity.
  - intros Hneg. destruct (Z.leb_spec 0 (Query.max_results q)) as [Hpos|_]; [lia|].
    f_equal. lia.
Qed.

Lemma query_document_max_results_edges_witness :
  exists response,
    Query.query_engine MiniRe.lib Sample.store (Sample.ask Query.keyword "invoice" (-1)) =
      Query.Ok response /\
    map Query.block_id (Query.results response) = ["p2_b1"; "p1_b0"].
Proof.
  destruct (query_document_max_results_edges
              Query.keyword_search (Query.regex_search MiniRe.lib) Query.apply_filters
              Sample.store (Sample.ask Query.keyword "invoice" (-1)) Sample.document
              (Query.keyword_search Sample.document "invoice"))
    as (response & Hrun & _ & _ & Hneg).
  - vm_compute. reflexivity.
  - reflexivity.
  - exists response. split; [exact Hrun|].
    rewrite Hneg by (simpl; lia). vm_compute. reflexivity.
Defined.

(** The semantic mode is a stub: against a stored document it runs no
    search and, with a filter that finds nothing in an empty list, returns
    an empty response whatever the document and the query text are. *)
Theorem semantic_query_returns_nothing
    (keyword_search : Document.t -> string -> list Query.QueryResult)
    (regex_search : Document.t -> string -> Query.Result (list Query.QueryResult))
    (apply_filters : list Query.QueryResult -> Query.PerceptionQuery -> list Query.QueryResult)
    (store : gmap string Document.t) (q : Query.PerceptionQuery) (doc : Document.t) :
  (forall q', apply_filters [] q' = []) ->
  Query.mode q = Query.semantic ->
  DocumentStore.get (Query.document_id q) store = Some doc ->
  Query.query_document keyword_search regex_search apply_filters store q =
    Query.Ok {| Query.results := [] |}.
Proof.
  intros Hfilter Hmode Hdoc.
  unfold Query.query_document, Query.execute_query.
  rewrite Hdoc, Hmode. simpl. rewrite Hfilter.
  unfold Query.slice_to. destruct (0 <=? Query.max_results q)%Z; now rewrite take_nil.
Qed.

Lemma semantic_query_returns_nothing_witness :
  Query.query_engine MiniRe.lib Sample.store (Sample.ask Query.semantic "invoice" 10) =
    Query.Ok {| Query.results := [] |}.
Proof.
  apply (semantic_query_returns_nothing Query.keyword_search
           (Query.regex_search MiniRe.lib) Query.apply_filters
           Sample.store (Sample.ask Query.semantic "invoice" 10) Sample.document).
  - intros q'. reflexivity.
  - reflexivity.
  - vm_compute. reflexivity.
Defined.
